(** * Verification of the graph query pipeline

    A shallow embedding of the modules under
    [backend/src/agent/tools/graph]: the subgraph registry, the query
    engine and its cache, the rule based protocol analyzer, the GraphQL
    builder with its deterministic fallback, subgraph discovery and the
    batch tool.

    Conventions of the embedding.
    - A Python [str] is a [string]: the bytes of its UTF-8 encoding.
      Substring search on UTF-8 bytes agrees with Python's on code
      points, and [len] and slices count code points ([Py.len],
      [Py.take], [Py.drop]).
    - The registry, the analyzer, the discovery, the batch tool and
      the validity check of an identifier call [str.lower],
      [str.strip], [str.isalnum] and the digit class of [re], whose
      results depend on the Unicode tables: these are taken as they
      are, the operations of the class [Py.Unicode], and every
      statement about that code holds for whatever they compute.
      [Plain.text] gives them on ASCII text, where they are evaluated.
    - The builder and the engine are embedded with the ASCII range of
      [lower], [upper], [title], [strip] and of the regular expression
      classes ([Py.lower] and the like).
    - [datetime.now()] is an explicit reading of a clock, an integer
      number of microseconds.
    - A Python dictionary whose iteration order is observed is an
      insertion ordered association list ([PyDict]); one that is only
      looked up is a [gmap].
    - A raised exception is the left injection of a sum, carrying the
      text of [str(e)]. *)

From Stdlib Require Import ZArith QArith Ascii String List Bool Lia.
From stdpp Require Import base option list gmap strings pretty.

Local Open Scope string_scope.
Local Open Scope Z_scope.

Set Warnings "-register-all".

(** ** Python string primitives *)

Module Py.

Definition is_upper (c : ascii) : bool :=
  let n := nat_of_ascii c in (Nat.leb 65 n && Nat.leb n 90)%bool.

Definition is_lower (c : ascii) : bool :=
  let n := nat_of_ascii c in (Nat.leb 97 n && Nat.leb n 122)%bool.

Definition is_digit (c : ascii) : bool :=
  let n := nat_of_ascii c in (Nat.leb 48 n && Nat.leb n 57)%bool.

Definition is_alpha (c : ascii) : bool := (is_upper c || is_lower c)%bool.

(** [str.isspace] on the ASCII range: TAB..CR, FS..US and the blank. *)
Definition is_space (c : ascii) : bool :=
  let n := nat_of_ascii c in
  ((Nat.leb 9 n && Nat.leb n 13) || (Nat.leb 28 n && Nat.leb n 32))%bool.

(** [\w] on the ASCII range. *)
Definition is_word (c : ascii) : bool :=
  (is_alpha c || is_digit c || Ascii.eqb c "_")%bool.

Definition lower_char (c : ascii) : ascii :=
  if is_upper c then ascii_of_nat (nat_of_ascii c + 32) else c.

Definition upper_char (c : ascii) : ascii :=
  if is_lower c then ascii_of_nat (nat_of_ascii c - 32) else c.

Fixpoint map_string (f : ascii -> ascii) (s : string) : string :=
  match s with
  | EmptyString => EmptyString
  | String c r => String (f c) (map_string f r)
  end.

Definition lower : string -> string := map_string lower_char.
Definition upper : string -> string := map_string upper_char.

(** [str.title]: the first letter of every run of letters in upper
    case, the others in lower case. *)
Fixpoint title_go (in_word : bool) (s : string) : string :=
  match s with
  | EmptyString => EmptyString
  | String c r =>
      if is_alpha c
      then String (if in_word then lower_char c else upper_char c) (title_go true r)
      else String c (title_go false r)
  end.

Definition title : string -> string := title_go false.

(** Truth value of a string and of an optional string. *)
Definition truthy (s : string) : bool :=
  match s with EmptyString => false | _ => true end.

Definition truthy_opt (o : option string) : bool :=
  match o with Some s => truthy s | None => false end.

(** [sub in s]. *)
Fixpoint contains (sub s : string) : bool :=
  if String.prefix sub s then true
  else match s with
       | EmptyString => false
       | String _ r => contains sub r
       end.

(** [sep.join(parts)]. *)
Fixpoint join (sep : string) (parts : list string) : string :=
  match parts with
  | [] => ""
  | [p] => p
  | p :: rest => p +:+ sep +:+ join sep rest
  end.

Fixpoint lstrip (s : string) : string :=
  match s with
  | String c r => if is_space c then lstrip r else s
  | EmptyString => EmptyString
  end.

(** Drops the trailing white space: a character is kept when it is not
    a blank or when something is kept after it. *)
Fixpoint rstrip (s : string) : string :=
  match s with
  | EmptyString => EmptyString
  | String c r =>
      match rstrip r with
      | EmptyString => if is_space c then EmptyString else String c EmptyString
      | r' => String c r'
      end
  end.

Definition strip (s : string) : string := rstrip (lstrip s).

(** [s.split(sep)] for a one character separator: always at least one
    part. *)
Fixpoint split_go (sep : ascii) (cur : string) (s : string) : list string :=
  match s with
  | EmptyString => [String.rev cur]
  | String c r =>
      if Ascii.eqb c sep then String.rev cur :: split_go sep "" r
      else split_go sep (String c cur) r
  end.

Definition split (sep : ascii) (s : string) : list string := split_go sep "" s.

(** [s * n]. *)
Fixpoint repeat_str (s : string) (n : nat) : string :=
  match n with
  | O => ""
  | S k => s +:+ repeat_str s k
  end.

(** A character that is not white space. *)
Definition inkless (c : ascii) : bool := negb (is_space c).

(** The double quote. *)
Definition dq : string := String (ascii_of_nat 34) EmptyString.

(** A byte that continues a character of the UTF-8 encoding. *)
Definition is_continuation (c : ascii) : bool :=
  let n := nat_of_ascii c in (Nat.leb 128 n && Nat.ltb n 192)%bool.

(** [len(s)]: the number of code points, that is of the bytes that do
    not continue a character. *)
Fixpoint len (s : string) : nat :=
  match s with
  | EmptyString => O
  | String c r => if is_continuation c then len r else S (len r)
  end.

(** [s[:n]] for [n >= 0]: the first [n] code points, each with the
    bytes that continue it. *)
Fixpoint take (n : nat) (s : string) : string :=
  match s with
  | EmptyString => EmptyString
  | String c r =>
      if is_continuation c then String c (take n r)
      else match n with
           | O => EmptyString
           | S k => String c (take k r)
           end
  end.

(** [s[n:]] for [n >= 0]. *)
Fixpoint drop (n : nat) (s : string) : string :=
  match s with
  | EmptyString => EmptyString
  | String c r =>
      if is_continuation c then drop n r
      else match n with
           | O => s
           | S k => drop k r
           end
  end.

(** The methods of [str] and of [re] that consult the Unicode tables:
    [s.lower()], [s.strip()], [s.isalnum()], and the text that [\d*]
    matches at the head of [s]. *)
Class Unicode := {
  str_lower : string -> string;
  str_strip : string -> string;
  str_isalnum : string -> bool;
  re_digits : string -> string
}.

End Py.

(** ** Insertion ordered dictionaries *)

Module PyDict.

Section Ops.
Context {V : Type}.

Definition t := list (string * V).

(** [d[k]] / [k in d] / [d.get(k)]. *)
Fixpoint get (k : string) (d : list (string * V)) : option V :=
  match d with
  | [] => None
  | (k', v) :: r => if String.eqb k k' then Some v else get k r
  end.

Definition mem (k : string) (d : list (string * V)) : bool :=
  match get k d with Some _ => true | None => false end.

(** [d[k] = v]: an existing key keeps its place, a new one goes last. *)
Fixpoint set (k : string) (v : V) (d : list (string * V)) : list (string * V) :=
  match d with
  | [] => [(k, v)]
  | (k', v') :: r =>
      if String.eqb k k' then (k', v) :: r else (k', v') :: set k v r
  end.

(** [del d[k]]. *)
Fixpoint del (k : string) (d : list (string * V)) : list (string * V) :=
  match d with
  | [] => []
  | (k', v') :: r => if String.eqb k k' then r else (k', v') :: del k r
  end.

(** In place mutation of the object stored at [k]. *)
Fixpoint alter (f : V -> V) (k : string) (d : list (string * V)) : list (string * V) :=
  match d with
  | [] => []
  | (k', v') :: r =>
      if String.eqb k k' then (k', f v') :: r else (k', v') :: alter f k r
  end.

Definition keys (d : list (string * V)) : list string := map fst d.
Definition values (d : list (string * V)) : list V := map snd d.

(** The well-formedness of a dictionary: no key occurs twice. *)
Definition wf (d : list (string * V)) : Prop := NoDup (keys d).

(** How many entries sit at key [k]. *)
Definition count_key (k : string) (d : list (string * V)) : nat :=
  length (filter (fun e => String.eqb k (fst e) = true) d).

End Ops.

Arguments t : clear implicits.

End PyDict.

(** ** graph_config.py *)

Module Config.

(** [CACHE_SETTINGS["enabled"]] and [CACHE_SETTINGS["ttl"]] (seconds). *)
Definition cache_enabled : bool := true.
Definition cache_ttl_seconds : Z := 300.

(** A [timedelta(seconds=n)] in the unit of the clock. *)
Definition timedelta_seconds (n : Z) : Z := n * 1000000.

Definition api_key_missing : string :=
  "Graph 功能未配置，请设置 GRAPH_API_KEY 环境变量".

Definition graph_network_subgraph (api_key : string) : string :=
  "https://gateway.thegraph.com/api/" +:+ api_key +:+
  "/subgraphs/id/DZz4kDTdmzWLWsV373w2bSmoar3umKKH9y82SUKr5qmp".

Definition subgraph_gateway (api_key subgraph_id : string) : string :=
  "https://gateway.thegraph.com/api/" +:+ api_key +:+
  "/subgraphs/id/" +:+ subgraph_id.

(** [get_subgraph_endpoint], [get_graph_network_endpoint]: a
    [ValueError] without [GRAPH_API_KEY]. *)
Definition get_subgraph_endpoint (GRAPH_API_KEY subgraph_id : string)
  : string + string :=
  if negb (Py.truthy GRAPH_API_KEY) then inl api_key_missing
  else inr (subgraph_gateway GRAPH_API_KEY subgraph_id).

Definition get_graph_network_endpoint (GRAPH_API_KEY : string) : string + string :=
  if negb (Py.truthy GRAPH_API_KEY) then inl api_key_missing
  else inr (graph_network_subgraph GRAPH_API_KEY).

Definition is_alnum_char (c : ascii) : bool := (Py.is_alpha c || Py.is_digit c)%bool.

Fixpoint all_chars (p : ascii -> bool) (s : string) : bool :=
  match s with
  | EmptyString => true
  | String c r => (p c && all_chars p r)%bool
  end.

(** [str.isalnum] on ASCII text: every character alphanumeric and at
    least one. *)
Definition isalnum (s : string) : bool := (Py.truthy s && all_chars is_alnum_char s)%bool.

Definition is_valid_subgraph_id `{Py.Unicode} (subgraph_id : string) : bool :=
  if negb (Py.truthy subgraph_id) then false
  else if (Nat.ltb (Py.len subgraph_id) 30
           || Nat.ltb 60 (Py.len subgraph_id))%bool then false
  else Py.str_isalnum subgraph_id.

(** [format_address]: short or empty addresses are returned as they
    are, the others keep six characters at either end. *)
Definition short_address_length : nat := 6.

Definition format_address (address : string) : string :=
  if (negb (Py.truthy address) || Nat.ltb (Py.len address) 10)%bool
  then address
  else Py.take short_address_length address +:+ "..." +:+
       Py.drop (Py.len address - short_address_length) address.

End Config.

(** ** graph_registry.py *)

Module Registry.

Record SubgraphRecord := mkRecord {
  protocol : string;
  network : string;
  version : option string;
  subgraph_id : string;
  name : string;
  health_status : string;
  last_checked : Z;
  query_count : Z
}.

(** [SubgraphRecord.cache_key]. *)
Definition make_key (p n : string) (v : option string) : string :=
  Py.join "-" ([p; n] ++ (if Py.truthy_opt v then [default "" v] else [])).

Definition cache_key (r : SubgraphRecord) : string :=
  make_key (protocol r) (network r) (version r).

(** The registry is its in-memory cache; [_save_cache] only writes the
    document out and swallows its own exceptions, so it changes neither
    the cache nor any returned value. *)
Definition cache := list (string * SubgraphRecord).

Definition bump (r : SubgraphRecord) : SubgraphRecord :=
  mkRecord (protocol r) (network r) (version r) (subgraph_id r) (name r)
           (health_status r) (last_checked r) (query_count r + 1).

(** The loop of step 3 of [find]: the first record, in iteration order,
    of the protocol and network is counted and returned. *)
Fixpoint find_fuzzy (p n : string) (c : cache) : option string * cache :=
  match c with
  | [] => (None, [])
  | (k, r) :: rest =>
      if (String.eqb (protocol r) p && String.eqb (network r) n)%bool
      then (Some (subgraph_id r), (k, bump r) :: rest)
      else let '(res, rest') := find_fuzzy p n rest in (res, (k, r) :: rest')
  end.

Definition hit (key : string) (r : SubgraphRecord) (c : cache) : option string * cache :=
  (Some (subgraph_id r), PyDict.alter bump key c).

Definition find_no_version (p n : string) (c : cache) : option string * cache :=
  let key := p +:+ "-" +:+ n in
  match PyDict.get key c with
  | Some r => hit key r c
  | None => find_fuzzy p n c
  end.

Definition find (p n : string) (v : option string) (c : cache) : option string * cache :=
  if Py.truthy_opt v then
    let key := p +:+ "-" +:+ n +:+ "-" +:+ default "" v in
    match PyDict.get key c with
    | Some r => hit key r c
    | None => find_no_version p n c
    end
  else find_no_version p n c.

(** The keyword arguments [add] forwards to the record constructor: the
    three optional fields, and the names of any other keyword, which
    the constructor rejects with a [TypeError]. *)
Record Kwargs := mkKwargs {
  kw_health_status : option string;
  kw_last_checked : option Z;
  kw_query_count : option Z;
  kw_other : list string
}.

Definition no_kwargs : Kwargs := mkKwargs None None None [].

Definition new_record `{Py.Unicode} (p n sid nm : string) (v : option string)
  (kw : Kwargs) (now : Z) : SubgraphRecord :=
  mkRecord (Py.str_lower p) (Py.str_lower n)
           (if Py.truthy_opt v then Some (Py.str_lower (default "" v)) else None)
           sid nm
           (default "unknown" (kw_health_status kw))
           (default now (kw_last_checked kw))
           (default 0 (kw_query_count kw)).

Definition add `{Py.Unicode} (p n sid nm : string) (v : option string) (kw : Kwargs)
  (now : Z) (c : cache) : bool * cache :=
  match kw_other kw with
  | _ :: _ => (false, c)
  | [] =>
      let record := new_record p n sid nm v kw now in
      (true, PyDict.set (cache_key record) record c)
  end.

Definition remove (p n : string) (v : option string) (c : cache) : bool * cache :=
  let key := make_key p n v in
  if PyDict.mem key c then (true, PyDict.del key c) else (false, c).

Definition set_health (hs : string) (now : Z) (r : SubgraphRecord) : SubgraphRecord :=
  mkRecord (protocol r) (network r) (version r) (subgraph_id r) (name r)
           hs now (query_count r).

Definition update_health (p n hs : string) (v : option string) (now : Z) (c : cache)
  : cache :=
  let key := make_key p n v in
  if PyDict.mem key c then PyDict.alter (set_health hs now) key c else c.

(** [set()] followed by [list()]: the distinct elements; the order of
    a Python set is not specified, here that of first occurrence. *)
Fixpoint distinct (l : list string) : list string :=
  match l with
  | [] => []
  | x :: r => x :: filter (fun y => String.eqb x y = false) (distinct r)
  end.

Definition get_all_protocols (c : cache) : list string :=
  distinct (map protocol (PyDict.values c)).

Definition get_protocol_networks (p : string) (c : cache) : list string :=
  distinct (map network
    (filter (fun r => String.eqb (protocol r) p = true) (PyDict.values c))).

(** [_init_default_cache] on a registry, at clock reading [now]. *)
Definition init_default_cache `{Py.Unicode} (now : Z) (c : cache) : cache :=
  snd (add "uniswap" "ethereum" "5zvR82QoaXYFyDEKLZ9t6v9adgnptxYpKpSbxtgVENFV"
           "Uniswap V3" (Some "v3") no_kwargs now c).

(** The operations of the registry, for statements over all of them. *)
Inductive op :=
| OpFind (p n : string) (v : option string)
| OpAdd (p n sid nm : string) (v : option string) (kw : Kwargs) (now : Z)
| OpRemove (p n : string) (v : option string)
| OpUpdateHealth (p n hs : string) (v : option string) (now : Z).

Definition step `{Py.Unicode} (o : op) (c : cache) : cache :=
  match o with
  | OpFind p n v => snd (find p n v c)
  | OpAdd p n sid nm v kw now => snd (add p n sid nm v kw now c)
  | OpRemove p n v => snd (remove p n v c)
  | OpUpdateHealth p n hs v now => update_health p n hs v now c
  end.

(** The key an operation reads, writes or deletes. *)
Definition target_key `{Py.Unicode} (o : op) : string :=
  match o with
  | OpFind p n v => make_key p n v
  | OpAdd p n sid nm v kw now => cache_key (new_record p n sid nm v kw now)
  | OpRemove p n v => make_key p n v
  | OpUpdateHealth p n _ v _ => make_key p n v
  end.

(** [find] and [update_health] keep every record in place. *)
Definition is_lookup (o : op) : bool :=
  match o with
  | OpFind _ _ _ | OpUpdateHealth _ _ _ _ _ => true
  | _ => false
  end.

(** The [query_count] stored at a key, if a record is there. *)
Definition count_at (k : string) (c : cache) : option Z :=
  query_count <$> PyDict.get k c.

(** The number of look-ups the registry has answered, over all records. *)
Definition total_count (c : cache) : Z :=
  fold_right (fun e acc => query_count (snd e) + acc) 0 c.

(** [a] is not above [b] when both are present; a count cannot vanish. *)
Definition count_le (a b : option Z) : Prop :=
  match a, b with
  | None, _ => True
  | Some x, Some y => x <= y
  | Some _, None => False
  end.

End Registry.

(** ** Dynamically typed values: parsed JSON *)

Module Json.

Inductive json :=
| JNull
| JBool (b : bool)
| JInt (z : Z)
| JFloat (q : Q)
| JStr (s : string)
| JList (l : list json)
| JObj (d : list (string * json)).

(** Truth value of a Python object. *)
Definition truthy (j : json) : bool :=
  match j with
  | JNull => false
  | JBool b => b
  | JInt z => negb (Z.eqb z 0)
  | JFloat q => negb (Qeq_bool q 0)
  | JStr s => Py.truthy s
  | JList l => match l with [] => false | _ => true end
  | JObj d => match d with [] => false | _ => true end
  end.

Definition type_name (j : json) : string :=
  match j with
  | JNull => "NoneType"
  | JBool _ => "bool"
  | JInt _ => "int"
  | JFloat _ => "float"
  | JStr _ => "str"
  | JList _ => "list"
  | JObj _ => "dict"
  end.

(** [j.get(k, dflt)]: an [AttributeError] unless [j] is a dictionary. *)
Definition get (k : string) (dflt : json) (j : json) : string + json :=
  match j with
  | JObj d => inr (default dflt (PyDict.get k d))
  | _ => inl ("'" +:+ type_name j +:+ "' object has no attribute 'get'")
  end.

Definition is_str (s : string) (j : json) : bool :=
  match j with JStr s' => String.eqb s s' | _ => false end.

(** [s in j] for a string [s]: key of a dictionary, element of a list,
    substring of a string; a [TypeError] on anything else. *)
Definition py_in (s : string) (j : json) : string + bool :=
  match j with
  | JObj d => inr (PyDict.mem s d)
  | JList l => inr (existsb (is_str s) l)
  | JStr t => inr (Py.contains s t)
  | _ => inl ("argument of type '" +:+ type_name j +:+ "' is not iterable")
  end.

(** [j[k] = v] for a string [k]: only a dictionary takes it. *)
Definition setitem (k : string) (v : json) (j : json) : string + json :=
  match j with
  | JObj d => inr (JObj (PyDict.set k v d))
  | JList _ => inl "list indices must be integers or slices, not str"
  | _ => inl ("'" +:+ type_name j +:+ "' object does not support item assignment")
  end.

(** [j.lower()]: only a string has it. *)
Definition str_lower `{Py.Unicode} (j : json) : string + string :=
  match j with
  | JStr s => inr (Py.str_lower s)
  | _ => inl ("'" +:+ type_name j +:+ "' object has no attribute 'lower'")
  end.

(** [for x in j]: the elements of a list, the keys of a dictionary, the
    characters of a string. *)
Definition iter (j : json) : string + list json :=
  match j with
  | JList l => inr l
  | JObj d => inr (map (fun e => JStr (fst e)) d)
  | JStr s => inr (map (fun c => JStr (String c "")) (list_ascii_of_string s))
  | _ => inl ("'" +:+ type_name j +:+ "' object is not iterable")
  end.

End Json.

(** A small notation for code that may raise: the exception is the left
    injection. *)
Definition exc_bind {E A B : Type} (m : E + A) (k : A -> E + B) : E + B :=
  match m with
  | inl e => inl e
  | inr a => k a
  end.

Notation "x <~ m ;; k" := (exc_bind m (fun x => k))
  (at level 100, m at next level, right associativity).

(** ** graphql_builder.py *)

Module Builder.

Import Json.

Record Plan := mkPlan {
  plan_query : string;
  plan_variables : json;
  plan_explanation : json
}.

Definition plan_dict (query : string) (variables : json) (explanation : string) : json :=
  JObj [("query", JStr query); ("variables", variables);
        ("explanation", JStr explanation)].

Definition nl : string := String "010" EmptyString.

(** *** The regular expressions of [_parse_llm_response] *)

Fixpoint strip_prefix (p s : string) : option string :=
  match p with
  | EmptyString => Some s
  | String a p' =>
      match s with
      | EmptyString => None
      | String b s' => if Ascii.eqb a b then strip_prefix p' s' else None
      end
  end.

(** The text before the first occurrence of [sub]. *)
Fixpoint before_sub (sub s : string) : option string :=
  if String.prefix sub s then Some EmptyString
  else match s with
       | EmptyString => None
       | String a r => String a <$> before_sub sub r
       end.

(** The suffix that starts at the first occurrence of [c]. *)
Fixpoint from_first (c : ascii) (s : string) : option string :=
  match s with
  | EmptyString => None
  | String a r => if Ascii.eqb a c then Some s else from_first c r
  end.

(** The prefix that ends at the last occurrence of [c]. *)
Fixpoint upto_last (c : ascii) (s : string) : option string :=
  match s with
  | EmptyString => None
  | String a r =>
      match upto_last c r with
      | Some p => Some (String a p)
      | None => if Ascii.eqb a c then Some (String a EmptyString) else None
      end
  end.

(** [re.search(r'\{[\s\S]*\}', s)]: from the first opening brace to
    the last closing brace after it. *)
Definition regex_braces (s : string) : option string :=
  match from_first "{" s with
  | Some (String a r) => String a <$> upto_last "}" r
  | _ => None
  end.

(** One attempt of the fence pattern at the head of [s]: three back
    quotes, an optional language tag, a line feed, then the shortest
    text up to a line feed followed by three back quotes. *)
Definition fence_at (s : string) : option string :=
  match strip_prefix "```" s with
  | None => None
  | Some r =>
      let body :=
        match strip_prefix ("graphql" +:+ nl) r with
        | Some b => Some b
        | None =>
            match strip_prefix ("json" +:+ nl) r with
            | Some b => Some b
            | None => strip_prefix nl r
            end
        end in
      match body with
      | Some b => before_sub (nl +:+ "```") b
      | None => None
      end
  end.

(** [re.search(r'```(?:graphql|json)?\n([\s\S]*?)\n```', s)], group 1. *)
Fixpoint regex_fence (s : string) : option string :=
  match fence_at s with
  | Some c => Some c
  | None =>
      match s with
      | EmptyString => None
      | String _ r => regex_fence r
      end
  end.

Section Parse.

(** [json.loads]: a value or a decoding error. *)
Variable json_loads : string -> string + json.

Definition parse_llm_response (response : string) : string + json :=
  if String.prefix "{" (Py.strip response) then json_loads response
  else match regex_braces response with
  | Some m => json_loads m
  | None =>
  match regex_fence response with
  | Some content =>
      if String.prefix "{" (Py.strip content) then json_loads content
      else inr (plan_dict content (JObj []) "Extracted from code block")
  | None =>
      if (Py.contains "query" (Py.lower response) && Py.contains "{" response)%bool
      then inr (plan_dict response (JObj []) "Direct GraphQL extraction")
      else inl "无法解析 LLM 响应"
  end
  end.

End Parse.

(** *** [_validate_and_fix_query] *)

Fixpoint skip_while (p : ascii -> bool) (s : string) : string :=
  match s with
  | String c r => if p c then skip_while p r else s
  | EmptyString => EmptyString
  end.

(** What follows the first closing parenthesis. *)
Fixpoint after_rparen (s : string) : option string :=
  match s with
  | EmptyString => None
  | String c r => if Ascii.eqb c ")" then Some r else after_rparen r
  end.

(** The pattern [query\s+\w*\s*(?:\([^)]*\))?\s*\{] at the head of [s].
    No class of the pattern overlaps the one after it, so the longest
    run of each is the only way to match. *)
Definition header_at (s : string) : bool :=
  match strip_prefix "query" s with
  | None => false
  | Some r =>
      match r with
      | String c _ =>
          if Py.is_space c then
            let r3 := skip_while Py.is_space (skip_while Py.is_word (skip_while Py.is_space r)) in
            let r4 :=
              match r3 with
              | String c3 r' => if Ascii.eqb c3 "(" then after_rparen r' else Some r3
              | EmptyString => Some r3
              end in
            match r4 with
            | Some r5 => String.prefix "{" (skip_while Py.is_space r5)
            | None => false
            end
          else false
      | EmptyString => false
      end
  end.

(** [re.search] of the pattern anywhere in [s]. *)
Fixpoint header_search (s : string) : bool :=
  if header_at s then true
  else match s with
       | EmptyString => false
       | String _ r => header_search r
       end.

(** [re.sub(r'\s+', ' ', s)]: every run of white space becomes one
    blank; [in_ws] tells that the previous character was white space. *)
Fixpoint collapse_go (in_ws : bool) (s : string) : string :=
  match s with
  | EmptyString => EmptyString
  | String c r =>
      if Py.is_space c
      then (if in_ws then collapse_go true r else String " " (collapse_go true r))
      else String c (collapse_go false r)
  end.

Definition normalize (s : string) : string := Py.strip (collapse_go false s).

(** The only white space is the blank and no two blanks are adjacent;
    [prev] tells that the previous character was a blank. *)
Fixpoint spaced_go (prev : bool) (s : string) : bool :=
  match s with
  | EmptyString => true
  | String c r =>
      if Py.is_space c then (Ascii.eqb c " " && negb prev && spaced_go true r)%bool
      else spaced_go false r
  end.

(** As [spaced_go], and the text does not end with a blank. *)
Fixpoint tidy_go (prev : bool) (s : string) : bool :=
  match s with
  | EmptyString => negb prev
  | String c r =>
      if Py.is_space c then (Ascii.eqb c " " && negb prev && tidy_go true r)%bool
      else tidy_go false r
  end.

(** A cleaned text: words separated by single blanks, nothing around. *)
Definition tidy (s : string) : bool :=
  match s with
  | EmptyString => true
  | _ => tidy_go true s
  end.

Definition validate_and_fix_query (result : json) : string + Plan :=
  query <~ get "query" (JStr "") result ;;
  variables <~ get "variables" (JObj []) result ;;
  match query with
  | JStr q =>
      if negb (Py.truthy q) then inl "无效的查询格式"
      else
        let q1 := if header_search q then q else "query GeneratedQuery " +:+ q in
        variables' <~
          (if Py.contains "$first" q1 then
             present <~ py_in "first" variables ;;
             if negb present then setitem "first" (JInt 10) variables else inr variables
           else inr variables) ;;
        explanation <~ get "explanation" (JStr "") result ;;
        inr (mkPlan (normalize q1) variables' explanation)
  | _ => inl "无效的查询格式"
  end.

(** *** [_get_fallback_query] *)

Definition q_specific_pools : string :=
  "
                        query SpecificPools($token0: String!, $token1: String!, $first: Int!) {
                            pools(
                                where: {
                                    or: [
                                        {token0_: {symbol_contains_nocase: $token0}, token1_: {symbol_contains_nocase: $token1}},
                                        {token0_: {symbol_contains_nocase: $token1}, token1_: {symbol_contains_nocase: $token0}}
                                    ]
                                },
                                first: $first,
                                orderBy: totalValueLockedUSD,
                                orderDirection: desc
                            ) {
                                id
                                token0 { symbol name decimals }
                                token1 { symbol name decimals }
                                feeTier
                                totalValueLockedUSD
                                volumeUSD
                                liquidity
                            }
                        }
                    ".

Definition q_fallback_pools : string :=
  "
                    query FallbackPools($first: Int!) {
                        pools(first: $first, orderBy: totalValueLockedUSD, orderDirection: desc) {
                            id
                            token0 { symbol name }
                            token1 { symbol name }
                            feeTier
                            totalValueLockedUSD
                            volumeUSD
                        }
                    }
                ".

Definition q_fallback_token : string :=
  "
                    query FallbackToken($symbol: String!) {
                        tokens(
                            where: {symbol_contains_nocase: $symbol},
                            first: 1
                        ) {
                            id
                            symbol
                            name
                            decimals
                            totalValueLockedUSD
                            volumeUSD
                        }
                    }
                ".

Definition q_fallback_tokens : string :=
  "
                    query FallbackTokens($first: Int!) {
                        tokens(first: $first, orderBy: totalValueLockedUSD, orderDirection: desc) {
                            id
                            symbol
                            name
                            totalValueLockedUSD
                            volumeUSD
                        }
                    }
                ".

Definition q_fallback_meta : string :=
  "
                query FallbackMeta {
                    _meta {
                        block { number timestamp }
                        deployment
                        hasIndexingErrors
                    }
                }
            ".

Definition common_tokens : list string :=
  ["eth"; "weth"; "usdc"; "usdt"; "dai"; "wbtc"; "uni"; "link"; "aave"; "matic"].

Definition pool_words : list string := ["池"; "pool"; "交易对"; "pair"; "流动性"].
Definition token_words : list string := ["代币"; "token"; "币"].

(** [any(word in text for word in words)]. *)
Definition any_in (words : list string) (text : string) : bool :=
  existsb (fun w => Py.contains w text) words.

Definition token_symbols (query_lower : string) : list string :=
  map Py.upper (filter (fun t => Py.contains t query_lower = true) common_tokens).

Definition get_fallback_query (query : string) : Plan :=
  let query_lower := Py.lower query in
  let symbols := token_symbols query_lower in
  if any_in pool_words query_lower then
    match symbols with
    | t0 :: t1 :: _ =>
        mkPlan q_specific_pools
          (JObj [("token0", JStr t0); ("token1", JStr t1); ("first", JInt 10)])
          (JStr ("Fallback: 查询所有 " +:+ t0 +:+ "/" +:+ t1 +:+ " 池子（包括所有费率）"))
    | _ =>
        mkPlan q_fallback_pools (JObj [("first", JInt 10)])
          (JStr "Fallback: 返回 TVL 最高的池子")
    end
  else if any_in token_words query_lower then
    match symbols with
    | t0 :: _ =>
        mkPlan q_fallback_token (JObj [("symbol", JStr t0)])
          (JStr ("Fallback: 查询 " +:+ t0 +:+ " 代币信息"))
    | [] =>
        mkPlan q_fallback_tokens (JObj [("first", JInt 10)])
          (JStr "Fallback: 返回 TVL 最高的代币")
    end
  else
    mkPlan q_fallback_meta (JObj []) (JStr "Fallback: 返回子图元数据").

(** *** [build_query] *)

Record ProtocolContext := mkContext {
  pc_name : string;
  pc_network : string;
  pc_description : string;
  pc_entities : list string;
  pc_categories : list string
}.

Section Build.

Variable json_loads : string -> string + json.

(** Lines 134 to 152: the examples and the two prompts are assembled
    and the model is invoked; what comes back is the text of the
    response, or an exception. *)
Variable llm : string -> ProtocolContext -> string + string.

Definition try_model (natural_language_query : string) (ctx : ProtocolContext)
  : string + Plan :=
  response <~ llm natural_language_query ctx ;;
  result <~ parse_llm_response json_loads response ;;
  validate_and_fix_query result.

Definition build_query (natural_language_query : string) (ctx : ProtocolContext) : Plan :=
  match try_model natural_language_query ctx with
  | inr plan => plan
  | inl _ => get_fallback_query natural_language_query
  end.

End Build.

(** *** The variables a query document refers to

    A reference is a dollar sign followed by a name; this is the notion
    the invariant of a plan is stated with. *)

Fixpoint take_while (p : ascii -> bool) (s : string) : string :=
  match s with
  | String c r => if p c then String c (take_while p r) else EmptyString
  | EmptyString => EmptyString
  end.

Fixpoint var_refs (s : string) : list string :=
  match s with
  | EmptyString => []
  | String c r =>
      if Ascii.eqb c "$" then
        let nm := take_while Py.is_word r in
        if Py.truthy nm then nm :: var_refs r else var_refs r
      else var_refs r
  end.

(** The variables object gives [nm] a value. *)
Definition binds (variables : json) (nm : string) : bool :=
  match variables with
  | JObj d => PyDict.mem nm d
  | _ => false
  end.

(** Every variable the document refers to has a value. *)
Definition plan_closed (p : Plan) : bool :=
  forallb (binds (plan_variables p)) (var_refs (plan_query p)).

End Builder.

(** ** protocol_analyzer.py *)

Module Analyzer.

Record ProtocolInfo := mkInfo {
  protocol : string;
  network : string;
  version : option string;
  confidence : Q
}.

Record ProtocolAnalysisResult := mkAnalysis {
  protocols : list ProtocolInfo;
  raw_query : string;
  overall_confidence : Q
}.

Definition protocol_aliases : list (string * string) :=
  [("uni", "uniswap"); ("uniswap", "uniswap"); ("univ2", "uniswap");
   ("univ3", "uniswap"); ("aave", "aave"); ("compound", "compound");
   ("comp", "compound"); ("curve", "curve"); ("crv", "curve");
   ("sushi", "sushiswap"); ("sushiswap", "sushiswap");
   ("balancer", "balancer"); ("bal", "balancer");
   ("pancake", "pancakeswap"); ("pancakeswap", "pancakeswap");
   ("cake", "pancakeswap"); ("gmx", "gmx"); ("lido", "lido");
   ("maker", "maker"); ("mkr", "maker"); ("synthetix", "synthetix");
   ("snx", "synthetix"); ("yearn", "yearn"); ("yfi", "yearn")].

Definition network_aliases : list (string * string) :=
  [("ethereum", "ethereum"); ("eth", "ethereum"); ("mainnet", "ethereum");
   ("以太坊", "ethereum"); ("polygon", "polygon"); ("matic", "polygon");
   ("马蹄", "polygon"); ("arbitrum", "arbitrum"); ("arb", "arbitrum");
   ("optimism", "optimism"); ("op", "optimism"); ("bsc", "bsc");
   ("binance", "bsc"); ("bnb", "bsc"); ("avalanche", "avalanche");
   ("avax", "avalanche"); ("fantom", "fantom"); ("ftm", "fantom")].

(** The first loop of [_rule_based_analyze]: one entry per standard
    name, in the order the aliases are met. *)
Fixpoint scan_protocols (aliases : list (string * string)) (query_lower : string)
  (found : list ProtocolInfo) : list ProtocolInfo :=
  match aliases with
  | [] => found
  | (alias, standard_name) :: rest =>
      let found' :=
        if Py.contains alias query_lower then
          if existsb (fun p => String.eqb (protocol p) standard_name) found
          then found
          else (found ++ [mkInfo standard_name "ethereum" None (8 # 10)])%list
        else found in
      scan_protocols rest query_lower found'
  end.

(** The second loop: the first alias present decides the network. *)
Fixpoint scan_network (aliases : list (string * string)) (query_lower : string) : string :=
  match aliases with
  | [] => "ethereum"
  | (alias, standard_network) :: rest =>
      if Py.contains alias query_lower then standard_network
      else scan_network rest query_lower
  end.

(** [re.search(r'v(\d+)', s)], group 1: the digits after the first [v]
    that has one. *)
Fixpoint search_version `{Py.Unicode} (s : string) : option string :=
  match s with
  | EmptyString => None
  | String c r =>
      if (Ascii.eqb c "v" && Py.truthy (Py.re_digits r))%bool
      then Some (Py.re_digits r)
      else search_version r
  end.

Definition set_network (n : string) (p : ProtocolInfo) : ProtocolInfo :=
  mkInfo (protocol p) n (version p) (confidence p).

Definition set_version (v : option string) (p : ProtocolInfo) : ProtocolInfo :=
  mkInfo (protocol p) (network p) v (confidence p).

Definition dex_keywords : list string := ["dex"; "swap"; "pool"; "liquidity"; "amm"].
Definition lending_keywords : list string := ["lend"; "borrow"; "deposit"; "供应"; "借贷"].

Definition sum_confidence (l : list ProtocolInfo) : Q :=
  fold_right (fun p acc => Qplus (confidence p) acc) 0%Q l.

Definition mean_confidence (l : list ProtocolInfo) : Q :=
  match l with
  | [] => 0%Q
  | _ => Qdiv (sum_confidence l) (inject_Z (Z.of_nat (length l)))
  end.

Definition rule_based_analyze `{Py.Unicode} (user_query : string)
  : ProtocolAnalysisResult :=
  let query_lower := Py.str_lower user_query in
  let found0 := scan_protocols protocol_aliases query_lower [] in
  let detected_network := scan_network network_aliases query_lower in
  let found1 := map (set_network detected_network) found0 in
  let found2 :=
    match search_version query_lower with
    | Some digits => map (set_version (Some ("v" +:+ digits))) found1
    | None => found1
    end in
  let found3 :=
    match found2 with
    | [] =>
        if Builder.any_in dex_keywords query_lower then
          [mkInfo "uniswap" detected_network None (5 # 10);
           mkInfo "sushiswap" detected_network None (5 # 10)]
        else if Builder.any_in lending_keywords query_lower then
          [mkInfo "aave" detected_network None (5 # 10);
           mkInfo "compound" detected_network None (5 # 10)]
        else []
    | _ => found2
    end in
  mkAnalysis found3 user_query (mean_confidence found3).

(** [analyze_query]: with a model client the model path is tried and
    any exception of it leads to the rules; without one the rules are
    used. [llm_analyze] stands for [_llm_analyze_query] of a client. *)
Definition analyze_query `{Py.Unicode}
  (llm_analyze : option (string -> string + ProtocolAnalysisResult))
  (user_query : string) : ProtocolAnalysisResult :=
  match llm_analyze with
  | Some f =>
      match f user_query with
      | inr r => r
      | inl _ => rule_based_analyze user_query
      end
  | None => rule_based_analyze user_query
  end.

(** The mentions found by name, before the keyword defaults. *)
Definition named `{Py.Unicode} (user_query : string) : list ProtocolInfo :=
  let query_lower := Py.str_lower user_query in
  let found1 := map (set_network (scan_network network_aliases query_lower))
                    (scan_protocols protocol_aliases query_lower []) in
  match search_version query_lower with
  | Some digits => map (set_version (Some ("v" +:+ digits))) found1
  | None => found1
  end.

(** No alias of a protocol occurs in the lowered query. *)
Definition no_protocol_token `{Py.Unicode} (user_query : string) : bool :=
  negb (existsb (fun a => Py.contains (fst a) (Py.str_lower user_query)) protocol_aliases).

End Analyzer.

(** ** query_engine.py *)

Module Engine.

Import Json.

(** A result dictionary of the gateway. *)
Definition Data := list (string * json).

Definition truthy_data (d : Data) : bool :=
  match d with [] => false | _ => true end.

(** A request handed to [graph_client.execute_query]: the dataset, the
    document, the variables ([None] when the caller gave none). *)
Definition Request : Type := string * string * option json.

(** The state of the engine and of the world it reads: the cache with
    the time each entry was stored, the time to live in seconds, how
    many times the clock was read, and the requests made so far. *)
Record State := mkState {
  cache : gmap string (Data * Z);
  cache_ttl : Z;
  ticks : nat;
  calls : list Request
}.

(** [QueryEngine()]. *)
Definition init : State := mkState ∅ Config.cache_ttl_seconds 0 [].

Definition set_cache (m : gmap string (Data * Z)) (s : State) : State :=
  mkState m (cache_ttl s) (ticks s) (calls s).

Definition log_call (r : Request) (s : State) : State :=
  mkState (cache s) (cache_ttl s) (ticks s) (calls s ++ [r]).

Definition ttl_delta (s : State) : Z := Config.timedelta_seconds (cache_ttl s).

Section Effects.

(** The built-in [hash] on strings and [str] on the variables. *)
Variable hash : string -> Z.
Variable py_str : option json -> string.

(** [clock k] is what the [k]-th call of [datetime.now()] returns;
    [transport k] is how [graph_client.execute_query] answers the
    [k]-th request made to it ([None]: the client gave up). *)
Variable clock : nat -> Z.
Variable transport : nat -> string -> string -> option json -> option Data.

Definition now (s : State) : Z * State :=
  (clock (ticks s), mkState (cache s) (cache_ttl s) (S (ticks s)) (calls s)).

Definition cache_key (subgraph_id query : string) (variables : option json) : string :=
  subgraph_id +:+ ":" +:+ pretty (hash query) +:+ ":" +:+ pretty (hash (py_str variables)).

(** The read of the cache at the head of [execute_query]: the clock is
    read only when the key is present. *)
Definition lookup_cache (key : string) (s : State) : option Data * State :=
  match cache s !! key with
  | Some (cached_data, cached_time) =>
      let '(n, s') := now s in
      (if Z.ltb (n - cached_time) (ttl_delta s) then Some cached_data else None, s')
  | None => (None, s)
  end.

(** [_cleanup_cache]: an entry goes when it is older than the time to
    live, so the ones kept have [now - time <= ttl]. *)
Definition cleanup_cache (s : State) : State :=
  let '(n, s') := now s in
  set_cache (filter (fun kv => n - snd (snd kv) <= ttl_delta s) (cache s')) s'.

Definition execute_query (subgraph_id query : string) (variables : option json)
  (use_cache : bool) (s : State) : option Data * State :=
  let caching := (use_cache && Config.cache_enabled)%bool in
  let key := cache_key subgraph_id query variables in
  let '(cached, s1) := if caching then lookup_cache key s else (None, s) in
  match cached with
  | Some cached_data => (Some cached_data, s1)
  | None =>
      let result := transport (length (calls s1)) subgraph_id query variables in
      let s2 := log_call (subgraph_id, query, variables) s1 in
      match result with
      | Some data =>
          if (truthy_data data && caching)%bool then
            let '(n, s3) := now s2 in
            (result, cleanup_cache (set_cache (<[key := (data, n)]> (cache s3)) s3))
          else (result, s2)
      | None => (result, s2)
      end
  end.

(** [clear_cache] and [get_cache_stats]. *)
Definition clear_cache (s : State) : State := set_cache ∅ s.

Definition get_cache_stats (s : State) : nat * bool * Z :=
  (size (cache s), Config.cache_enabled, cache_ttl s).

(** [test_connection]: a probe that never uses the cache. *)
Definition test_query : string :=
  "
        query TestConnection {
            _meta {
                block {
                    number
                    timestamp
                }
                deployment
                hasIndexingErrors
            }
        }
        ".

Definition test_connection (subgraph_id : string) (s : State) : bool * State :=
  let '(result, s') := execute_query subgraph_id test_query None false s in
  (match result with Some d => PyDict.mem "_meta" d | None => false end, s').

(** How many requests a run added. *)
Definition requests_between (s s' : State) : nat := length (calls s') - length (calls s).

End Effects.

(** *** [execute_natural_language_query] *)

Record QueryContext := mkQC {
  qc_explanation : json;
  qc_graphql_query : string;
  qc_variables : json;
  qc_subgraph_id : string;
  qc_protocol : string;
  qc_network : string
}.

Record NLResult := mkNL {
  success : bool;
  error : option string;
  data : option Data;
  formatted_result : string;
  query_context : option QueryContext
}.

Definition failure (message formatted : string) : NLResult :=
  mkNL false (Some message) None formatted None.

(** [context[k]]: a [KeyError], whose text is the quoted key, when the
    key is missing. The entries read are strings. *)
Definition ctx_get (k : string) (context : list (string * string)) : string + string :=
  match PyDict.get k context with
  | Some v => inr v
  | None => inl ("'" +:+ k +:+ "'")
  end.

Definition protocol_context (protocol network : string) : Builder.ProtocolContext :=
  Builder.mkContext (Py.title protocol +:+ " Protocol") network
    (Py.title protocol +:+ " Protocol on " +:+ Py.title network) [] ["DeFi"].

Section Pipeline.

(** The three stages, each of which may raise: the builder, the
    execution against the dataset, the formatter. *)
Variable St : Type.
Variable builder : string -> Builder.ProtocolContext -> string + Builder.Plan.
Variable executor : string -> string -> option json -> St -> (string + option Data) * St.
Variable formatter : Data -> json -> string -> string + string.

(** The body of the [try] block: a result or the exception that left
    it, and the state reached. *)
Definition nl_try (context : list (string * string)) (s : St) : (string + NLResult) * St :=
  match ctx_get "protocol" context with
  | inl e => (inl e, s)
  | inr protocol =>
  match ctx_get "network" context with
  | inl e => (inl e, s)
  | inr network =>
  match ctx_get "user_query" context with
  | inl e => (inl e, s)
  | inr user_query =>
  match builder user_query (protocol_context protocol network) with
  | inl e => (inl e, s)
  | inr plan =>
  if negb (Py.truthy (Builder.plan_query plan))
  then (inr (failure "GraphQL Builder 构建查询失败" ""), s)
  else
  match ctx_get "subgraph_id" context with
  | inl e => (inl e, s)
  | inr subgraph_id =>
  match executor subgraph_id (Builder.plan_query plan)
                 (Some (Builder.plan_variables plan)) s with
  | (inl e, s') => (inl e, s')
  | (inr None, s') => (inr (failure "GraphQL 查询执行失败" ""), s')
  | (inr (Some result), s') =>
      if negb (truthy_data result)
      then (inr (failure "GraphQL 查询执行失败" ""), s')
      else
        match formatter result (Builder.plan_explanation plan) user_query with
        | inl e => (inl e, s')
        | inr formatted =>
            (inr (mkNL true None (Some result) formatted
                    (Some (mkQC (Builder.plan_explanation plan) (Builder.plan_query plan)
                                (Builder.plan_variables plan) subgraph_id protocol network))),
             s')
        end
  end end end end end end.

Definition banner : string := "❌ 查询失败: ".

(** The [except] clause turns whatever was raised into a result. *)
Definition execute_natural_language_query (context : list (string * string)) (s : St)
  : NLResult * St :=
  match nl_try context s with
  | (inr r, s') => (r, s')
  | (inl e, s') => (failure e (banner +:+ e), s')
  end.

(** A stage raises [e]: the builder, or the execution of the plan it
    returned, or the formatter on the data that came back. *)
Definition stage_raises (context : list (string * string)) (s : St) (e : string) : Prop :=
  exists protocol network user_query,
    ctx_get "protocol" context = inr protocol /\
    ctx_get "network" context = inr network /\
    ctx_get "user_query" context = inr user_query /\
    (builder user_query (protocol_context protocol network) = inl e \/
     exists plan subgraph_id,
       builder user_query (protocol_context protocol network) = inr plan /\
       Py.truthy (Builder.plan_query plan) = true /\
       ctx_get "subgraph_id" context = inr subgraph_id /\
       (fst (executor subgraph_id (Builder.plan_query plan)
                      (Some (Builder.plan_variables plan)) s) = inl e \/
        exists result,
          fst (executor subgraph_id (Builder.plan_query plan)
                        (Some (Builder.plan_variables plan)) s) = inr (Some result) /\
          truthy_data result = true /\
          formatter result (Builder.plan_explanation plan) user_query = inl e)).

End Pipeline.

(** The engine as it is wired: the builder of [graphql_builder.py],
    [execute_query] with the cache on, and the formatter. *)
Definition run_natural_language_query
  (hash : string -> Z) (py_str : option json -> string)
  (clock : nat -> Z) (transport : nat -> string -> string -> option json -> option Data)
  (json_loads : string -> string + json)
  (llm : string -> Builder.ProtocolContext -> string + string)
  (formatter : Data -> json -> string -> string + string)
  (context : list (string * string)) (s : State) : NLResult * State :=
  execute_natural_language_query State
    (fun q pc => inr (Builder.build_query json_loads llm q pc))
    (fun sid q vars st =>
       let '(r, st') := execute_query hash py_str clock transport sid q vars true st in
       (inr r, st'))
    formatter context s.

End Engine.

(** ** graph_client.py *)

Module Client.

(** The clients made so far, by dataset. *)
Definition clients := gset string.

(** [get_or_create_client]: whether a client is returned, and the
    clients afterwards. [make] tells whether building the transport and
    the client succeeds. *)
Definition get_or_create_client `{Py.Unicode} (api_key : string) (make : string -> bool)
  (subgraph_id : string) (cs : gset string) : bool * gset string :=
  if negb (Py.truthy api_key) then (false, cs)
  else if negb (Config.is_valid_subgraph_id subgraph_id) then (false, cs)
  else if bool_decide (subgraph_id ∈ cs) then (true, cs)
  else if make subgraph_id then (true, {[subgraph_id]} ∪ cs)
  else (false, cs).

(** [GraphClient.execute_query]: [run] parses and sends the document
    and may raise; every exception becomes [None]. *)
Definition execute_query `{Py.Unicode} (api_key : string) (make : string -> bool)
  (run : string -> string -> option Json.json -> string + Engine.Data)
  (subgraph_id query : string) (variables : option Json.json) (cs : gset string)
  : option Engine.Data * gset string :=
  match get_or_create_client api_key make subgraph_id cs with
  | (false, cs') => (None, cs')
  | (true, cs') =>
      (match run subgraph_id query variables with
       | inr result => Some result
       | inl _ => None
       end, cs')
  end.

End Client.

(** ** subgraph_discovery.py *)

Module Discovery.

Import Json.

(** A candidate. Its fields are whatever the meta-index sent; [signal]
    keeps the token amount the float of the source is computed from,
    which no decision reads. *)
Record DiscoveryResult := mkResult {
  subgraph_id : json;
  name : json;
  network : json;
  signal : json;
  is_synced : json;
  description : json
}.

Record SubgraphDiscovery := mkDiscovery {
  api_key : string;
  endpoint : option string
}.

(** [SubgraphDiscovery(api_key)]: the constructor raises when a key is
    passed while [GRAPH_API_KEY] is not set. *)
Definition init (api_key_arg : option string) (GRAPH_API_KEY : string)
  : string + SubgraphDiscovery :=
  let key := if Py.truthy_opt api_key_arg then default "" api_key_arg else GRAPH_API_KEY in
  if negb (Py.truthy key) then inr (mkDiscovery key None)
  else ep <~ Config.get_graph_network_endpoint GRAPH_API_KEY ;;
       inr (mkDiscovery key (Some ep)).

Definition q_high_signal : string :=
  "
        query HighSignalSubgraphs($minSignal: String!) {
            subgraphs(
                first: 50,
                orderBy: currentSignalledTokens,
                orderDirection: desc,
                where: {
                    currentSignalledTokens_gt: $minSignal,
                    active: true
                }
            ) {
                id
                displayName
                description
                currentSignalledTokens
                currentVersion {
                    subgraphDeployment {
                        manifest {
                            network
                            description
                        }
                        indexingStatus {
                            synced
                            health
                        }
                    }
                }
            }
        }
        ".

Definition q_search : string :=
  "
        query SearchSubgraphs($text: String!) {
            subgraphs(
                where: {
                    displayName_contains_nocase: $text,
                    active: true
                },
                first: 10,
                orderBy: currentSignalledTokens,
                orderDirection: desc
            ) {
                id
                displayName
                description
                currentSignalledTokens
                currentVersion {
                    subgraphDeployment {
                        manifest {
                            network
                            description
                        }
                        indexingStatus {
                            synced
                            health
                        }
                    }
                }
            }
        }
        ".

Definition q_details : string :=
  "
        query GetSubgraphDetails($id: ID!) {
            subgraph(id: $id) {
                id
                displayName
                description
                currentVersion {
                    subgraphDeployment {
                        manifest {
                            network
                        }
                        indexingStatus {
                            synced
                            health
                        }
                    }
                }
                currentSignalledTokens
            }
        }
        ".

(** [str(int(1000 * 1e18))]. *)
Definition min_signal : string := "1000000000000000000000".

(** A request posted to the meta-index: the endpoint, the document and
    its variables. *)
Definition Post : Type := string * string * json.

(** What a post gives back: an exception of the transport, or a status
    code and the decoded body ([response.json()] may raise too). *)
Definition Response : Type := string + (Z * (string + json)).

Section Network.

(** [http_post k] answers the [k]-th post; [float_ok] tells whether
    [float()] accepts a value. *)
Context `{Py.Unicode}.

Variable http_post : nat -> string -> string -> json -> Response.
Variable float_ok : json -> bool.

Definition post (ep query : string) (variables : json) (log : list Post)
  : Response * list Post :=
  (http_post (length log) ep query variables, (log ++ [(ep, query, variables)])%list).

(** The body of the loop of [_parse_search_results] for one entry:
    [inr None] is [continue], an exception is caught by the loop. *)
Definition parse_subgraph (subgraph : json) : string + option DiscoveryResult :=
  current_version <~ get "currentVersion" (JObj []) subgraph ;;
  if negb (truthy current_version) then inr None else
  deployment <~ get "subgraphDeployment" (JObj []) current_version ;;
  if negb (truthy deployment) then inr None else
  manifest <~ get "manifest" (JObj []) deployment ;;
  indexing_status <~ get "indexingStatus" (JObj []) deployment ;;
  health <~ get "health" JNull indexing_status ;;
  if is_str "failed" health then inr None else
  tokens <~ get "currentSignalledTokens" (JInt 0) subgraph ;;
  if negb (float_ok tokens) then inl "could not convert to float" else
  sid <~ get "id" (JStr "") subgraph ;;
  display <~ get "displayName" (JStr "Unknown") subgraph ;;
  net <~ get "network" (JStr "unknown") manifest ;;
  synced <~ get "synced" (JBool false) indexing_status ;;
  fallback <~ get "description" (JStr "") subgraph ;;
  descr <~ get "description" fallback manifest ;;
  inr (Some (mkResult sid display net tokens synced descr)).

Fixpoint parse_all (subgraphs : list json) : list DiscoveryResult :=
  match subgraphs with
  | [] => []
  | sg :: rest =>
      match parse_subgraph sg with
      | inr (Some r) => r :: parse_all rest
      | _ => parse_all rest
      end
  end.

Definition parse_search_results (data : json) : string + list DiscoveryResult :=
  inner <~ get "data" (JObj []) data ;;
  subgraphs <~ get "subgraphs" (JList []) inner ;;
  items <~ iter subgraphs ;;
  inr (parse_all items).

(** What both searches do with a response: the results, or the
    exception raised on the way. *)
Definition read_response (r : Response) : string + option (list DiscoveryResult) :=
  match r with
  | inl e => inl e
  | inr (status, body) =>
      if Z.eqb status 200 then
        data <~ body ;;
        has_errors <~ py_in "errors" data ;;
        if has_errors then inr None
        else results <~ parse_search_results data ;; inr (Some results)
      else inr None
  end.

(** The candidates a response holds: none when it is not a well-formed
    answer. *)
Definition candidates (r : Response) : list DiscoveryResult :=
  match read_response r with
  | inr (Some results) => results
  | _ => []
  end.

Definition execute_search_query (ep search_term : string) (log : list Post)
  : list DiscoveryResult * list Post :=
  let '(r, log') := post ep q_search (JObj [("text", JStr search_term)]) log in
  (match read_response r with
   | inr (Some results) => results
   | _ => []
   end, log').

(** The filter of [_search_by_protocol_name], which is not under a
    [try]: the first result of the network whose name has the
    protocol. *)
Fixpoint first_by_name (protocol network : string) (results : list DiscoveryResult)
  : string + option DiscoveryResult :=
  match results with
  | [] => inr None
  | r :: rest =>
      n <~ str_lower (Discovery.network r) ;;
      if String.eqb n (Py.str_lower network) then
        nm <~ str_lower (name r) ;;
        if Py.contains (Py.str_lower protocol) nm then inr (Some r)
        else first_by_name protocol network rest
      else first_by_name protocol network rest
  end.

Fixpoint search_terms_loop (ep protocol network : string) (terms : list string)
  (log : list Post) : (string + option DiscoveryResult) * list Post :=
  match terms with
  | [] => (inr None, log)
  | term :: rest =>
      let '(results, log') := execute_search_query ep term log in
      match first_by_name protocol network results with
      | inl e => (inl e, log')
      | inr (Some r) => (inr (Some r), log')
      | inr None => search_terms_loop ep protocol network rest log'
      end
  end.

Definition search_by_protocol_name (ep protocol network : string) (version : option string)
  (log : list Post) : (string + option DiscoveryResult) * list Post :=
  let search_terms :=
    (protocol ::
     (if Py.truthy_opt version
      then [protocol +:+ " " +:+ default "" version; protocol +:+ default "" version]
      else []))%list in
  search_terms_loop ep protocol network search_terms log.

(** The filter of [_search_in_high_signal_subgraphs]: name or
    description has the protocol. *)
Fixpoint first_by_text (protocol network : string) (results : list DiscoveryResult)
  : string + option DiscoveryResult :=
  match results with
  | [] => inr None
  | r :: rest =>
      n <~ str_lower (Discovery.network r) ;;
      if String.eqb n (Py.str_lower network) then
        nm <~ str_lower (name r) ;;
        if Py.contains (Py.str_lower protocol) nm then inr (Some r)
        else
          d <~ str_lower (description r) ;;
          if Py.contains (Py.str_lower protocol) d then inr (Some r)
          else first_by_text protocol network rest
      else first_by_text protocol network rest
  end.

Definition search_in_high_signal_subgraphs (ep protocol network : string)
  (log : list Post) : option DiscoveryResult * list Post :=
  let '(r, log') := post ep q_high_signal (JObj [("minSignal", JStr min_signal)]) log in
  (match read_response r with
   | inr (Some results) =>
       match first_by_text protocol network results with
       | inr found => found
       | inl _ => None
       end
   | _ => None
   end, log').

(** [find]: the identifier found, if any, or the exception that left
    the first search; and the posts made. *)
Definition find (d : SubgraphDiscovery) (protocol network : string)
  (version : option string) (log : list Post) : (string + option json) * list Post :=
  match endpoint d with
  | None => (inr None, log)
  | Some ep =>
      match search_by_protocol_name ep protocol network version log with
      | (inl e, log') => (inl e, log')
      | (inr (Some r), log') => (inr (Some (subgraph_id r)), log')
      | (inr None, log') =>
          let '(r, log'') := search_in_high_signal_subgraphs ep protocol network log' in
          (inr (subgraph_id <$> r), log'')
      end
  end.

End Network.

(** What it takes for a candidate to be returned: it is on the asked
    network, compared without case, and its name or its description
    holds the protocol. *)
Definition matches `{Py.Unicode} (protocol network : string) (r : DiscoveryResult) : Prop :=
  str_lower (Discovery.network r) = inr (Py.str_lower network) /\
  ((exists nm, str_lower (name r) = inr nm /\ Py.contains (Py.str_lower protocol) nm = true) \/
   (exists ds, str_lower (description r) = inr ds /\
               Py.contains (Py.str_lower protocol) ds = true)).

End Discovery.

(** ** graph_tools.py *)

Module Tools.

Definition too_many_queries : string := "❌ 最多支持 5 个查询，请减少查询数量".
Definition no_query : string := "❌ 请提供至少一个查询".

(** [[q.strip() for q in queries.split(';') if q.strip()]]. *)
Definition query_list `{Py.Unicode} (queries : string) : list string :=
  filter (fun q => Py.truthy q = true) (map Py.str_strip (Py.split ";" queries)).

Section Batch.

Context `{Py.Unicode}.

(** [smart_graph_query] acts on the registry, the engine and the
    network; [St] is all it may read and change. It catches its own
    exceptions. *)
Variable St : Type.
Variable smart_graph_query : string -> St -> string * St.

(** The loop of [graph_multi_query] from index [i] on. *)
Fixpoint run_queries (i : nat) (qs : list string) (st : St) : list string * St :=
  match qs with
  | [] => ([], st)
  | query :: rest =>
      let '(result, st1) := smart_graph_query query st in
      let '(lines, st2) := run_queries (S i) rest st1 in
      ((Builder.nl +:+ "📋 查询 " +:+ pretty i +:+ ": " +:+ query)
         :: Py.repeat_str "-" 30 :: result :: lines, st2)
  end.

Definition graph_multi_query (GRAPH_API_KEY queries : string) (st : St) : string * St :=
  if negb (Py.truthy GRAPH_API_KEY) then (Config.api_key_missing, st)
  else
    let qs := query_list queries in
    if Nat.ltb 5 (length qs) then (too_many_queries, st)
    else match qs with
    | [] => (no_query, st)
    | _ =>
        let '(lines, st') := run_queries 1 qs st in
        (Py.join Builder.nl
           (("🔍 批量查询 (" +:+ pretty (length qs) +:+ " 个查询)")
              :: Py.repeat_str "=" 50 :: lines), st')
    end.

End Batch.

End Tools.

(** ** The Unicode operations on ASCII text *)

Module Plain.

(** The digits at the head of the text. *)
Fixpoint digits (s : string) : string :=
  match s with
  | String c r => if Py.is_digit c then String c (digits r) else EmptyString
  | EmptyString => EmptyString
  end.

(** On text in the ASCII range [str.lower] changes the letters A to Z,
    [str.strip] removes the blanks of [Py.is_space], [str.isalnum] asks
    for letters and digits, and [\d] is a digit 0 to 9. *)
Definition text : Py.Unicode :=
  {| Py.str_lower := Py.lower;
     Py.str_strip := Py.strip;
     Py.str_isalnum := Config.isalnum;
     Py.re_digits := digits |}.

End Plain.

(** ** Sample collaborators

    Concrete gateways, clocks, model responses and contexts, on which
    the statements below are evaluated. *)

Module Samples.

Import Json.

(** A gateway that answers every request with one pool, one that gives
    up on every request. *)
Definition one_pool : Engine.Data := [("pools", JList [JObj [("id", JStr "0x1")]])].

Definition answering (k : nat) (sid q : string) (vars : option json) : option Engine.Data :=
  Some one_pool.

Definition failing (k : nat) (sid q : string) (vars : option json) : option Engine.Data :=
  None.

(** A clock that advances one second a reading, and one that pauses
    ten minutes after its first two readings. *)
Definition seconds (k : nat) : Z := Z.of_nat k * 1000000.

Definition ten_minutes (k : nat) : Z :=
  if Nat.ltb k 2 then Z.of_nat k * 1000000 else 600000000 + Z.of_nat k * 1000000.

Definition toy_hash (s : string) : Z := Z.of_nat (String.length s).
Definition toy_str (v : option json) : string := "None".

(** A model response whose document uses a variable it gives no value
    to, and what [json.loads] makes of it. *)
Definition skip_query : string := "query Q($skip: Int) { pools(skip: $skip) { id } }".

Definition skip_response : string :=
  "{" +:+ Py.dq +:+ "query" +:+ Py.dq +:+ ": " +:+ Py.dq +:+ skip_query +:+ Py.dq +:+ ", "
  +:+ Py.dq +:+ "variables" +:+ Py.dq +:+ ": {}}".

Definition skip_object : json :=
  JObj [("query", JStr skip_query); ("variables", JObj [])].

Definition uniswap_context : Builder.ProtocolContext :=
  Builder.mkContext "Uniswap Protocol" "ethereum" "Uniswap Protocol on Ethereum" [] ["DeFi"].

(** The context the tool hands to the engine. *)
Definition engine_context : list (string * string) :=
  [("user_query", "USDC/ETH pool"); ("protocol", "uniswap"); ("network", "ethereum");
   ("subgraph_id", "5zvR82QoaXYFyDEKLZ9t6v9adgnptxYpKpSbxtgVENFV")].

(** An engine whose cache holds one entry stored fifteen minutes
    before the clock starts. *)
Definition stale_state : Engine.State :=
  Engine.mkState {["old" := (one_pool, -900000000)]} 300 0 [].

(** Two answers of the meta-index with one candidate each: the network
    of the first is missing, that of the second is in mixed case. *)
Definition candidate (network : json) : json :=
  JObj [("id", JStr "Qm1"); ("displayName", JStr "Uniswap V3");
        ("currentSignalledTokens", JStr "5");
        ("currentVersion", JObj [("subgraphDeployment",
           JObj [("manifest", JObj [("network", network)]);
                 ("indexingStatus", JObj [("synced", JBool true)])])])].

Definition null_network_body : json :=
  JObj [("data", JObj [("subgraphs", JList [candidate JNull])])].

Definition good_body : json :=
  JObj [("data", JObj [("subgraphs", JList [candidate (JStr "Mainnet")])])].

(** A registry whose one record was looked up three times. *)
Definition counted : Registry.cache :=
  [("a-b", Registry.mkRecord "a" "b" None "id" "nm" "unknown" 0 3)].

(** A registry with one record, looked up four times so far. *)
Definition uniswap_record : Registry.SubgraphRecord :=
  Registry.mkRecord "uniswap" "ethereum" (Some "v3") "ID123" "Uniswap V3" "unknown" 0 4.

Definition seeded : Registry.cache := [("uniswap-ethereum-v3", uniswap_record)].

(** A [smart_graph_query] that records the queries it is given. *)
Definition recording (q : string) (seen : list string) : string * list string :=
  ("ok", (seen ++ [q])%list).

End Samples.

(** * Properties *)

(** ** Dictionaries *)

Module DictFacts.

Import PyDict.

Section Facts.
Context {V : Type}.
Implicit Types (d : list (string * V)) (k : string) (v : V).

Lemma get_set_eq k v d : get k (set k v d) = Some v.
Proof.
  induction d as [|[k' v'] r IH]; simpl.
  - now rewrite String.eqb_refl.
  - destruct (String.eqb k k') eqn:E; simpl; rewrite E; auto.
Qed.

Lemma get_set_ne k k' v d : k <> k' -> get k' (set k v d) = get k' d.
Proof.
  intros Hne. induction d as [|[k0 v0] r IH]; simpl.
  - destruct (String.eqb k' k) eqn:E; auto.
    apply String.eqb_eq in E. congruence.
  - destruct (String.eqb k k0) eqn:E; simpl.
    + apply String.eqb_eq in E. subst k0.
      destruct (String.eqb k' k) eqn:E'; auto.
      apply String.eqb_eq in E'. congruence.
    + now rewrite IH.
Qed.

Lemma get_alter_eq f k d : get k (alter f k d) = f <$> get k d.
Proof.
  induction d as [|[k' v'] r IH]; simpl; auto.
  destruct (String.eqb k k') eqn:E; simpl; rewrite E; auto.
Qed.

Lemma get_alter_ne f k k' d : k <> k' -> get k' (alter f k d) = get k' d.
Proof.
  intros Hne. induction d as [|[k0 v0] r IH]; simpl; auto.
  destruct (String.eqb k k0) eqn:E; simpl.
  - apply String.eqb_eq in E. subst k0.
    destruct (String.eqb k' k) eqn:E'; auto.
    apply String.eqb_eq in E'. congruence.
  - now rewrite IH.
Qed.

Lemma get_del_eq k d : wf d -> get k (del k d) = None.
Proof.
  unfold wf, keys. induction d as [|[k' v'] r IH]; simpl; auto.
  intros Hnd. apply NoDup_cons in Hnd as [Hnotin Hnd].
  destruct (String.eqb k k') eqn:E; simpl.
  - apply String.eqb_eq in E. subst k'.
    clear IH Hnd. induction r as [|[k1 v1] r IH]; simpl; auto.
    destruct (String.eqb k k1) eqn:E1.
    + apply String.eqb_eq in E1. subst. exfalso. apply Hnotin. simpl. left.
    + apply IH. intros Hin. apply Hnotin. simpl. now right.
  - rewrite E. auto.
Qed.

Lemma get_del_ne k k' d : k <> k' -> get k' (del k d) = get k' d.
Proof.
  intros Hne. induction d as [|[k0 v0] r IH]; simpl; auto.
  destruct (String.eqb k k0) eqn:E; simpl.
  - apply String.eqb_eq in E. subst k0.
    destruct (String.eqb k' k) eqn:E'; auto.
    apply String.eqb_eq in E'. congruence.
  - now rewrite IH.
Qed.

Lemma set_set k v1 v2 d : set k v2 (set k v1 d) = set k v2 d.
Proof.
  induction d as [|[k' v'] r IH]; simpl.
  - now rewrite String.eqb_refl.
  - destruct (String.eqb k k') eqn:E; simpl; rewrite E; congruence.
Qed.

Lemma keys_alter f k d : keys (alter f k d) = keys d.
Proof.
  unfold keys. induction d as [|[k' v'] r IH]; simpl; auto.
  destruct (String.eqb k k'); simpl; congruence.
Qed.

Lemma get_None_not_in k d : get k d = None <-> k ∉ keys d.
Proof.
  unfold keys. induction d as [|[k' v'] r IH]; simpl.
  - split; auto. intros _ H. inversion H.
  - destruct (String.eqb k k') eqn:E.
    + apply String.eqb_eq in E. subst. split; [discriminate|].
      intros H. exfalso. apply H. left.
    + apply String.eqb_neq in E. rewrite IH. split.
      * intros H Hin. apply elem_of_cons in Hin as [?|?]; auto.
      * intros H Hin. apply H. now right.
Qed.

Lemma keys_set_present k v d :
  get k d <> None -> keys (set k v d) = keys d.
Proof.
  unfold keys. induction d as [|[k' v'] r IH]; simpl; [congruence|].
  destruct (String.eqb k k') eqn:E; simpl; auto.
  intros H. now rewrite IH.
Qed.

Lemma keys_set_absent k v d :
  get k d = None -> keys (set k v d) = (keys d ++ [k])%list.
Proof.
  unfold keys. induction d as [|[k' v'] r IH]; simpl; auto.
  destruct (String.eqb k k') eqn:E; simpl; [discriminate|].
  intros H. now rewrite IH.
Qed.

Lemma wf_set k v d : wf d -> wf (set k v d).
Proof.
  intros Hwf. unfold wf. destruct (get k d) eqn:G.
  - rewrite keys_set_present; auto. congruence.
  - rewrite keys_set_absent; auto.
    apply NoDup_app. split; [exact Hwf|]. split.
    + intros x Hx Hin. apply list_elem_of_singleton in Hin. subst x.
      now apply get_None_not_in in G.
    + apply NoDup_singleton.
Qed.

Lemma wf_alter f k d : wf d -> wf (alter f k d).
Proof. unfold wf. now rewrite keys_alter. Qed.

Lemma keys_del_sublist k d : sublist (keys (del k d)) (keys d).
Proof.
  unfold keys. induction d as [|[k' v'] r IH]; simpl; [constructor|].
  destruct (String.eqb k k'); simpl.
  - now apply sublist_cons.
  - now apply sublist_skip.
Qed.

Lemma wf_del k d : wf d -> wf (del k d).
Proof. unfold wf. intros H. eapply sublist_NoDup; [exact H|apply keys_del_sublist]. Qed.

Lemma count_key_absent k d : k ∉ keys d -> count_key k d = 0%nat.
Proof.
  unfold count_key, keys. induction d as [|[k' v'] r IH]; simpl; auto.
  intros Hnotin. rewrite filter_cons. simpl.
  destruct (decide (String.eqb k k' = true)) as [E|E].
  - apply String.eqb_eq in E. subst. exfalso. apply Hnotin. left.
  - apply IH. intros Hin. apply Hnotin. now right.
Qed.

Lemma count_key_present k d :
  wf d -> get k d <> None -> count_key k d = 1%nat.
Proof.
  unfold wf, keys. induction d as [|[k' v'] r IH]; simpl; [congruence|].
  intros Hnd Hget. apply NoDup_cons in Hnd as [Hnotin Hnd].
  unfold count_key. rewrite filter_cons. simpl.
  destruct (String.eqb k k') eqn:E.
  - apply String.eqb_eq in E. subst k'.
    destruct (decide (true = true)); [|congruence]. simpl.
    f_equal. now apply count_key_absent.
  - destruct (decide (false = true)); [discriminate|]. now apply IH.
Qed.

End Facts.

End DictFacts.

(** ** The registry *)

Module RegistryFacts.

Import Registry.

Section Generic.

Context `{U : Py.Unicode}.

Lemma make_key_no_version p n v :
  Py.truthy_opt v = false -> make_key p n v = p +:+ "-" +:+ n.
Proof. unfold make_key. now intros ->. Qed.

Lemma make_key_version p n v :
  Py.truthy_opt v = true -> make_key p n v = p +:+ "-" +:+ n +:+ "-" +:+ default "" v.
Proof. unfold make_key. now intros ->. Qed.

(** On names that lowering leaves as they are, the key [add] stores
    under is the key of the names. *)
Lemma cache_key_new_record p n sid nm v kw now :
  Py.str_lower p = p -> Py.str_lower n = n -> Py.str_lower <$> v = v ->
  cache_key (new_record p n sid nm v kw now) = make_key p n v.
Proof.
  intros Hp Hn Hv. unfold cache_key, new_record, make_key. simpl. rewrite Hp, Hn.
  destruct v as [s|]; simpl in *; auto.
  injection Hv as Hs. rewrite Hs.
  destruct (Py.truthy s) eqn:T; simpl; now rewrite ?T.
Qed.

(** X1: Round trip of [add] and [find] on names that are already in lower
    case: the identifier just stored is the one found. *)
Lemma add_find_lowercase p n sid nm v kw now c :
  Py.str_lower p = p -> Py.str_lower n = n -> Py.str_lower <$> v = v ->
  kw_other kw = [] ->
  fst (add p n sid nm v kw now c) = true /\
  fst (find p n v (snd (add p n sid nm v kw now c))) = Some sid.
Proof.
  intros Hp Hn Hv Hkw. unfold add. rewrite Hkw. simpl. split; auto.
  rewrite cache_key_new_record by assumption.
  unfold find. destruct (Py.truthy_opt v) eqn:Tv.
  - rewrite <- make_key_version by exact Tv.
    now rewrite DictFacts.get_set_eq.
  - unfold find_no_version. rewrite <- (make_key_no_version p n v) by exact Tv.
    now rewrite DictFacts.get_set_eq.
Qed.

Lemma count_at_alter_bump k k' c :
  count_le (count_at k c) (count_at k (PyDict.alter bump k' c)).
Proof.
  unfold count_at. destruct (String.eqb k' k) eqn:E.
  - apply String.eqb_eq in E. subst k'. rewrite DictFacts.get_alter_eq.
    destruct (PyDict.get k c); simpl; auto. lia.
  - apply String.eqb_neq in E. rewrite DictFacts.get_alter_ne by exact E.
    destruct (PyDict.get k c); simpl; auto. lia.
Qed.

Lemma count_le_refl a : count_le a a.
Proof. destruct a; simpl; auto. lia. Qed.

Lemma count_at_find_fuzzy k p n c :
  count_le (count_at k c) (count_at k (snd (find_fuzzy p n c))).
Proof.
  unfold count_at. induction c as [|[k0 r] rest IH]; simpl; auto.
  destruct (String.eqb (protocol r) p && String.eqb (network r) n)%bool; simpl.
  - destruct (String.eqb k k0); simpl; [lia|]. apply count_le_refl.
  - destruct (find_fuzzy p n rest) as [res rest'] eqn:F. simpl in *.
    destruct (String.eqb k k0); simpl; [lia|]. exact IH.
Qed.

Lemma count_at_find_no_version k p n c :
  count_le (count_at k c) (count_at k (snd (find_no_version p n c))).
Proof.
  unfold find_no_version. destruct (PyDict.get _ c); simpl.
  - apply count_at_alter_bump.
  - apply count_at_find_fuzzy.
Qed.

Lemma count_at_find k p n v c :
  count_le (count_at k c) (count_at k (snd (find p n v c))).
Proof.
  unfold find. destruct (Py.truthy_opt v).
  - destruct (PyDict.get _ c); simpl.
    + apply count_at_alter_bump.
    + apply count_at_find_no_version.
  - apply count_at_find_no_version.
Qed.

Lemma count_at_update_health k p n hs v now c :
  count_at k (update_health p n hs v now c) = count_at k c.
Proof.
  unfold update_health, count_at. destruct (PyDict.mem _ c); auto.
  destruct (String.eqb (make_key p n v) k) eqn:E.
  - apply String.eqb_eq in E. rewrite E, DictFacts.get_alter_eq.
    now destruct (PyDict.get k c).
  - apply String.eqb_neq in E. now rewrite DictFacts.get_alter_ne.
Qed.

(** C6 (amended): [find] and [update_health] never lower the count
    stored at any key; [add] and [remove] leave the count of every key
    other than the one they write or delete as it was; a successful
    [add] restarts the count at its own key at the value passed, 0 by
    default, and [remove] leaves no count at its own key. *)
Theorem query_count_monotone (c : cache) (o : op) (k : string) :
  (is_lookup o = true -> count_le (count_at k c) (count_at k (step o c))) /\
  (is_lookup o = false -> k <> target_key o -> count_at k (step o c) = count_at k c) /\
  (forall p n sid nm v kw now,
      o = OpAdd p n sid nm v kw now -> kw_other kw = [] ->
      count_at (target_key o) (step o c) = Some (default 0 (kw_query_count kw))) /\
  (forall p n v,
      o = OpRemove p n v -> PyDict.wf c -> count_at (target_key o) (step o c) = None).
Proof.
  split; [|split; [|split]].
  - intros H. destruct o as [p n v|p n sid nm v kw now|p n v|p n hs v now];
      simpl in *; try discriminate.
    + apply count_at_find.
    + rewrite count_at_update_health. apply count_le_refl.
  - intros H Hk. destruct o as [p n v|p n sid nm v kw now|p n v|p n hs v now];
      simpl in *; try discriminate.
    + unfold add. destruct (kw_other kw); simpl; auto.
      unfold count_at. now rewrite DictFacts.get_set_ne by congruence.
    + unfold remove. destruct (PyDict.mem _ c); simpl; auto.
      unfold count_at. now rewrite DictFacts.get_del_ne by congruence.
  - intros p n sid nm v kw now -> Hkw. simpl. unfold add. rewrite Hkw. simpl.
    unfold count_at. rewrite DictFacts.get_set_eq. reflexivity.
  - intros p n v -> Hwf. simpl. unfold remove, PyDict.mem, count_at.
    destruct (PyDict.get (make_key p n v) c) eqn:G; simpl.
    + now rewrite DictFacts.get_del_eq.
    + now rewrite G.
Qed.

Lemma cache_key_composed p n sid nm v kw now :
  cache_key (new_record p n sid nm v kw now)
  = make_key (Py.str_lower p) (Py.str_lower n)
             (if Py.truthy_opt v then Py.str_lower <$> v else None).
Proof. unfold cache_key, new_record. simpl. now destruct v. Qed.

(** C8: [add] is idempotent. After two calls with the same arguments,
    at clock readings [t1] then [t2], there is exactly one record at
    the composite key, the registry is the one a single call (at [t2])
    leaves, and it is the one left by the first call when the clock
    reads the same. *)
Theorem add_idempotent p n sid nm v kw (t1 t2 : Z) (c : cache) :
  PyDict.wf c -> kw_other kw = [] ->
  let c1 := snd (add p n sid nm v kw t1 c) in
  let c2 := snd (add p n sid nm v kw t2 c1) in
  PyDict.count_key (make_key (Py.str_lower p) (Py.str_lower n)
                      (if Py.truthy_opt v then Py.str_lower <$> v else None)) c2 = 1%nat /\
  c2 = snd (add p n sid nm v kw t2 c) /\
  (t1 = t2 -> c2 = c1).
Proof.
  intros Hwf Hkw. unfold add. rewrite Hkw. simpl.
  rewrite !cache_key_composed. split; [|split].
  - apply DictFacts.count_key_present.
    + now do 2 apply DictFacts.wf_set.
    + rewrite DictFacts.get_set_eq. discriminate.
  - apply DictFacts.set_set.
  - intros ->. apply DictFacts.set_set.
Qed.

End Generic.

#[local] Existing Instance Plain.text.

Lemma add_find_lowercase_witness :
  fst (add "uniswap" "ethereum" "ID123" "Uniswap V3" (Some "v3") no_kwargs 0 Samples.seeded) = true /\
  fst (find "uniswap" "ethereum" (Some "v3")
         (snd (add "uniswap" "ethereum" "ID123" "Uniswap V3" (Some "v3") no_kwargs 0
                 Samples.seeded))) = Some "ID123".
Proof. apply add_find_lowercase; reflexivity. Defined.

(** C1 (as stated, on a mixed case name): a record added as "Uniswap"
    on "Ethereum" is stored under the lowered key, and [find] with the
    very same arguments looks the unlowered key up and returns nothing. *)
Theorem add_then_find_mixed_case_misses :
  let c := snd (add "Uniswap" "Ethereum" "ID123" "Uniswap V3" (Some "v3") no_kwargs 0 []) in
  fst (add "Uniswap" "Ethereum" "ID123" "Uniswap V3" (Some "v3") no_kwargs 0 []) = true /\
  PyDict.keys c = ["uniswap-ethereum-v3"] /\
  fst (find "Uniswap" "Ethereum" (Some "v3") c) = None /\
  fst (find "uniswap" "ethereum" (Some "v3") c) = Some "ID123".
Proof. vm_compute. repeat split; reflexivity. Qed.

(** C6 (as stated): the count stored at a key is not monotone over all
    operations: [add] on a key that was looked up three times puts a
    fresh record there, whose count is 0. *)
Lemma query_count_reset_by_add :
  ~ (forall (c : cache) (o : op) (k : string),
        count_le (count_at k c) (count_at k (step o c))).
Proof.
  intros H.
  specialize (H [("a-b", mkRecord "a" "b" None "id" "nm" "unknown" 0 3)]
                (OpAdd "a" "b" "id" "nm" None no_kwargs 0) "a-b").
  vm_compute in H. apply H. reflexivity.
Qed.

Lemma query_count_monotone_witness :
  count_le (count_at "a-b" Samples.counted)
           (count_at "a-b" (step (OpFind "a" "b" None) Samples.counted)) /\
  count_at "a-b" (step (OpAdd "c" "d" "id" "nm" None no_kwargs 0) Samples.counted)
  = count_at "a-b" Samples.counted /\
  count_at (target_key (OpAdd "a" "b" "id" "nm" None no_kwargs 0))
           (step (OpAdd "a" "b" "id" "nm" None no_kwargs 0) Samples.counted) = Some 0 /\
  count_at (target_key (OpRemove "a" "b" None))
           (step (OpRemove "a" "b" None) Samples.counted) = None.
Proof.
  split; [|split; [|split]].
  - apply (proj1 (query_count_monotone Samples.counted (OpFind "a" "b" None) "a-b")).
    reflexivity.
  - apply (proj1 (proj2 (query_count_monotone Samples.counted
                           (OpAdd "c" "d" "id" "nm" None no_kwargs 0) "a-b"))).
    + reflexivity.
    + vm_compute. discriminate.
  - apply (proj1 (proj2 (proj2 (query_count_monotone Samples.counted
                                  (OpAdd "a" "b" "id" "nm" None no_kwargs 0) "a-b")))
             "a" "b" "id" "nm" None no_kwargs 0); reflexivity.
  - apply (proj2 (proj2 (proj2 (query_count_monotone Samples.counted
                                  (OpRemove "a" "b" None) "a-b")))
             "a" "b" None); [reflexivity|].
    apply NoDup_cons. split; [intros H; inversion H|apply NoDup_nil_2].
Defined.

Lemma add_idempotent_witness :
  let c1 := snd (add "Uniswap" "Ethereum" "ID123" "Uniswap V3" (Some "V3") no_kwargs 5 []) in
  let c2 := snd (add "Uniswap" "Ethereum" "ID123" "Uniswap V3" (Some "V3") no_kwargs 9 c1) in
  PyDict.count_key "uniswap-ethereum-v3" c2 = 1%nat /\
  c2 = snd (add "Uniswap" "Ethereum" "ID123" "Uniswap V3" (Some "V3") no_kwargs 9 []).
Proof.
  destruct (add_idempotent "Uniswap" "Ethereum" "ID123" "Uniswap V3" (Some "V3")
              no_kwargs 5 9 []) as (H1 & H2 & _).
  - apply NoDup_nil_2.
  - reflexivity.
  - split; [exact H1|exact H2].
Defined.

End RegistryFacts.

(** ** The query builder *)

Module BuilderFacts.

Import Json Builder Samples.

Lemma prefix_cons a p c s :
  String.prefix (String a p) (String c s) = (Ascii.eqb a c && String.prefix p s)%bool.
Proof.
  simpl. destruct (ascii_dec a c) as [->|Hne].
  - now rewrite Ascii.eqb_refl.
  - apply Ascii.eqb_neq in Hne. now rewrite Hne.
Qed.

Lemma prefix_nil_r p : String.prefix p "" = negb (Py.truthy p).
Proof. now destruct p. Qed.

Lemma contains_cons p c s :
  Py.contains p (String c s) = (String.prefix p (String c s) || Py.contains p s)%bool.
Proof. simpl. now destruct (String.prefix p (String c s)). Qed.

Lemma contains_nil p : Py.contains p "" = negb (Py.truthy p).
Proof. now destruct p. Qed.

Lemma eqb_space_false a c :
  Py.inkless a = true -> Py.is_space c = true -> Ascii.eqb a c = false.
Proof.
  unfold Py.inkless. intros Ha Hc. apply Ascii.eqb_neq. intros ->.
  rewrite Hc in Ha. discriminate.
Qed.

(** A pattern without white space starts at the same places before and
    after the runs of white space are collapsed. *)
Lemma prefix_collapse p s :
  Config.all_chars Py.inkless p = true ->
  String.prefix p (collapse_go false s) = String.prefix p s.
Proof.
  revert s. induction p as [|a p IH]; intros s Hp.
  - now destruct s; destruct (collapse_go false _).
  - simpl in Hp. apply andb_true_iff in Hp as [Ha Hp].
    destruct s as [|c s]; [reflexivity|].
    cbn [collapse_go]. destruct (Py.is_space c) eqn:Hc.
    + rewrite !prefix_cons, (eqb_space_false a c Ha Hc).
      assert (Ascii.eqb a " " = false) as -> by (now apply eqb_space_false).
      reflexivity.
    + rewrite !prefix_cons. now rewrite IH.
Qed.

Lemma contains_collapse p b s :
  Py.truthy p = true -> Config.all_chars Py.inkless p = true ->
  Py.contains p (collapse_go b s) = Py.contains p s.
Proof.
  intros Ht Hp. destruct p as [|a p]; [discriminate|]. clear Ht.
  pose proof Hp as Hp'. simpl in Hp'. apply andb_true_iff in Hp' as [Ha Hp'].
  revert b. induction s as [|c s IH]; intros b; [reflexivity|].
  cbn [collapse_go]. rewrite (contains_cons _ c s), prefix_cons.
  destruct (Py.is_space c) eqn:Hc.
  - rewrite (eqb_space_false a c Ha Hc). simpl.
    destruct b; [apply IH|].
    rewrite contains_cons, prefix_cons.
    assert (Ascii.eqb a " " = false) as -> by (now apply eqb_space_false).
    simpl. apply IH.
  - rewrite contains_cons, prefix_cons, IH.
    now rewrite (prefix_collapse p s Hp').
Qed.

Lemma contains_lstrip p s :
  Py.truthy p = true -> Config.all_chars Py.inkless p = true ->
  Py.contains p (Py.lstrip s) = Py.contains p s.
Proof.
  intros Ht Hp. destruct p as [|a p]; [discriminate|]. clear Ht.
  simpl in Hp. apply andb_true_iff in Hp as [Ha Hp].
  induction s as [|c s IH]; [reflexivity|].
  cbn [Py.lstrip]. destruct (Py.is_space c) eqn:Hc; [|reflexivity].
  rewrite IH, (contains_cons _ c s), prefix_cons, (eqb_space_false a c Ha Hc).
  reflexivity.
Qed.

Lemma rstrip_cons c s :
  Py.rstrip (String c s) =
  match Py.rstrip s with
  | EmptyString => if Py.is_space c then EmptyString else String c EmptyString
  | r' => String c r'
  end.
Proof. reflexivity. Qed.

Lemma prefix_rstrip p s :
  Config.all_chars Py.inkless p = true ->
  String.prefix p (Py.rstrip s) = String.prefix p s.
Proof.
  revert s. induction p as [|a p IH]; intros s Hp.
  - now destruct s; destruct (Py.rstrip _).
  - simpl in Hp. apply andb_true_iff in Hp as [Ha Hp].
    destruct s as [|c s]; [reflexivity|].
    rewrite rstrip_cons. specialize (IH s Hp).
    destruct (Py.rstrip s) as [|c' r'] eqn:R.
    + destruct (Py.is_space c) eqn:Hc.
      * now rewrite prefix_cons, (eqb_space_false a c Ha Hc).
      * now rewrite !prefix_cons, <- IH.
    + now rewrite !prefix_cons, <- IH.
Qed.

Lemma contains_rstrip p s :
  Py.truthy p = true -> Config.all_chars Py.inkless p = true ->
  Py.contains p (Py.rstrip s) = Py.contains p s.
Proof.
  intros Ht Hp. destruct p as [|a p]; [discriminate|]. clear Ht.
  pose proof Hp as Hp'. simpl in Hp'. apply andb_true_iff in Hp' as [Ha Hp'].
  induction s as [|c s IH]; [reflexivity|].
  rewrite (contains_cons _ c s), <- IH, <- (prefix_rstrip _ (String c s) Hp).
  rewrite rstrip_cons.
  destruct (Py.rstrip s) as [|c' r'] eqn:R.
  - destruct (Py.is_space c) eqn:Hc.
    + reflexivity.
    + rewrite contains_cons. reflexivity.
  - rewrite contains_cons. reflexivity.
Qed.

(** Cleaning the white space of a document neither hides nor creates
    an occurrence of a pattern that has no white space. *)
Lemma contains_normalize p s :
  Py.truthy p = true -> Config.all_chars Py.inkless p = true ->
  Py.contains p (normalize s) = Py.contains p s.
Proof.
  intros Ht Hp. unfold normalize, Py.strip.
  now rewrite contains_rstrip, contains_lstrip, contains_collapse.
Qed.

Lemma collapse_ink b s :
  Config.all_chars Py.is_space s = false ->
  Config.all_chars Py.is_space (collapse_go b s) = false.
Proof.
  revert b. induction s as [|c s IH]; intros b H; [discriminate|].
  simpl in *. destruct (Py.is_space c) eqn:Hc; simpl in *.
  - destruct b; [now apply IH|]. simpl. now apply IH.
  - now rewrite Hc.
Qed.

Lemma lstrip_ink s :
  Config.all_chars Py.is_space s = false ->
  exists c r, Py.lstrip s = String c r /\ Py.is_space c = false.
Proof.
  induction s as [|c s IH]; intros H; [discriminate|].
  simpl in *. destruct (Py.is_space c) eqn:Hc; simpl in *; eauto.
Qed.

Lemma rstrip_ink c r : Py.is_space c = false -> Py.rstrip (String c r) <> "".
Proof.
  intros Hc. rewrite rstrip_cons, Hc. now destruct (Py.rstrip r).
Qed.

(** A document with a character that is not white space is not empty
    once cleaned. *)
Lemma normalize_nonempty s :
  Config.all_chars Py.is_space s = false -> normalize s <> "".
Proof.
  intros H. unfold normalize, Py.strip.
  destruct (lstrip_ink _ (collapse_ink false s H)) as (c & r & -> & Hc).
  now apply rstrip_ink.
Qed.

Lemma strip_prefix_cons a p s r :
  strip_prefix (String a p) s = Some r -> exists s', s = String a s'.
Proof.
  destruct s as [|b s']; simpl; [discriminate|].
  destruct (Ascii.eqb a b) eqn:E; [|discriminate].
  apply Ascii.eqb_eq in E. subst. eauto.
Qed.

Lemma header_at_ink s : header_at s = true -> Config.all_chars Py.is_space s = false.
Proof.
  unfold header_at. destruct (strip_prefix "query" s) eqn:E; [|discriminate].
  apply strip_prefix_cons in E as [s' ->]. reflexivity.
Qed.

Lemma header_search_ink s :
  header_search s = true -> Config.all_chars Py.is_space s = false.
Proof.
  induction s as [|c s IH]; simpl.
  - destruct (header_at ""); discriminate.
  - destruct (header_at (String c s)) eqn:H.
    + intros _. apply header_at_ink in H. exact H.
    + intros Hs. rewrite (IH Hs). apply andb_false_r.
Qed.

(** What [_validate_and_fix_query] returns, spelled out. *)
Lemma validate_inr result p :
  validate_and_fix_query result = inr p ->
  exists d q vars,
    result = JObj d /\
    default (JStr "") (PyDict.get "query" d) = JStr q /\ Py.truthy q = true /\
    let q1 := if header_search q then q else "query GeneratedQuery " +:+ q in
    plan_query p = normalize q1 /\
    plan_variables p = vars /\
    plan_explanation p = default (JStr "") (PyDict.get "explanation" d) /\
    (if Py.contains "$first" q1 then
       exists present, py_in "first" (default (JObj []) (PyDict.get "variables" d)) = inr present /\
         (if present then inr (default (JObj []) (PyDict.get "variables" d))
          else setitem "first" (JInt 10) (default (JObj []) (PyDict.get "variables" d))) = inr vars
     else vars = default (JObj []) (PyDict.get "variables" d)).
Proof.
  unfold validate_and_fix_query. destruct result; simpl; try discriminate.
  destruct (default (JStr "") (PyDict.get "query" d)) as [| | | |q| |] eqn:Q; try discriminate.
  destruct (Py.truthy q) eqn:Tq; simpl; [|discriminate].
  set (q1 := if header_search q then q else "query GeneratedQuery " +:+ q).
  set (vars0 := default (JObj []) (PyDict.get "variables" d)).
  destruct (Py.contains "$first" q1) eqn:C.
  - destruct (py_in "first" vars0) as [e|present] eqn:P; simpl; [discriminate|].
    destruct present; simpl.
    + intros [= <-]. exists d, q, vars0. simpl. fold q1. rewrite C.
      repeat split; auto. exists true. fold vars0. now rewrite P.
    + destruct (setitem "first" (JInt 10) vars0) as [e|vars'] eqn:S; simpl; [discriminate|].
      intros [= <-]. exists d, q, vars'. simpl. fold q1. rewrite C.
      repeat split; auto. exists false. fold vars0. now rewrite P, S.
  - simpl. intros [= <-]. exists d, q, vars0. simpl. fold q1. rewrite C.
    repeat split; auto.
Qed.

Lemma validated_query_nonempty result p :
  validate_and_fix_query result = inr p -> plan_query p <> "".
Proof.
  intros H. apply validate_inr in H as (d & q & vars & _ & _ & Tq & Hq & _).
  rewrite Hq. apply normalize_nonempty.
  destruct (header_search q) eqn:Hs.
  - now apply header_search_ink.
  - reflexivity.
Qed.

Lemma fallback_query_nonempty q : plan_query (get_fallback_query q) <> "".
Proof.
  unfold get_fallback_query.
  destruct (any_in pool_words _).
  - destruct (token_symbols _) as [|t0 [|t1 ?]]; discriminate.
  - destruct (any_in token_words _).
    + destruct (token_symbols _); discriminate.
    + discriminate.
Qed.

(** C5: [build_query] is total, and the document of the plan it
    returns is never empty; when the model raises, or its response
    cannot be parsed, the plan is the one of the deterministic
    fallback. *)
Theorem build_query_never_empty json_loads llm (q : string) (ctx : ProtocolContext) :
  plan_query (build_query json_loads llm q ctx) <> "" /\
  ((exists e, llm q ctx = inl e) \/
   (exists r e, llm q ctx = inr r /\ parse_llm_response json_loads r = inl e) ->
   build_query json_loads llm q ctx = get_fallback_query q).
Proof.
  unfold build_query, try_model. split.
  - destruct (llm q ctx) as [e|r]; simpl; [apply fallback_query_nonempty|].
    destruct (parse_llm_response json_loads r) as [e|result]; simpl;
      [apply fallback_query_nonempty|].
    destruct (validate_and_fix_query result) as [e|p] eqn:V;
      [apply fallback_query_nonempty|].
    now apply validated_query_nonempty in V.
  - intros [[e ->]|(r & e & -> & Hp)]; simpl; auto.
    now rewrite Hp.
Qed.

Lemma build_query_never_empty_witness :
  build_query (fun _ => inl "Expecting value") (fun _ _ => inl "model unavailable")
    "USDC/ETH pool" uniswap_context
  = get_fallback_query "USDC/ETH pool".
Proof.
  apply (build_query_never_empty (fun _ => inl "Expecting value")
           (fun _ _ => inl "model unavailable")).
  left. exists "model unavailable". reflexivity.
Defined.

(** The five fallback plans bind every variable they refer to. *)
Lemma fallback_plan_closed q : plan_closed (get_fallback_query q) = true.
Proof.
  unfold get_fallback_query.
  destruct (any_in pool_words _).
  - destruct (token_symbols _) as [|t0 [|t1 ?]]; reflexivity.
  - destruct (any_in token_words _).
    + destruct (token_symbols _); reflexivity.
    + reflexivity.
Qed.

(** C7 (as stated): a plan built from model output may refer to a
    variable that has no value: only [first] is repaired. *)
Lemma build_query_unbound_variable :
  let p := build_query (fun _ => inr skip_object) (fun _ _ => inr skip_response)
             "pools after the first hundred"
             uniswap_context in
  plan_query p = skip_query /\
  plan_variables p = JObj [] /\
  plan_closed p = false.
Proof. vm_compute. repeat split; reflexivity. Qed.

(** C7 (amended): every fallback plan binds all the variables of its
    document; a plan built from model output whose document mentions
    [$first] and whose variables are an object has [first] among them,
    with the value 10 when the model gave none. *)
Theorem plan_variables_first_repaired (result : json) (p : Plan) (q : string) :
  validate_and_fix_query result = inr p ->
  plan_closed (get_fallback_query q) = true /\
  (Py.contains "$first" (plan_query p) = true ->
   forall vars, plan_variables p = JObj vars ->
     PyDict.mem "first" vars = true /\
     (forall d0, get "variables" (JObj []) result = inr (JObj d0) ->
        PyDict.get "first" vars = Some (default (JInt 10) (PyDict.get "first" d0)))).
Proof.
  intros V. split; [apply fallback_plan_closed|].
  apply validate_inr in V as (d & qd & vars & -> & _ & _ & Hq & Hv & _ & Hfirst).
  simpl in Hq, Hfirst. rewrite Hq, contains_normalize by reflexivity.
  intros C. rewrite C in Hfirst. destruct Hfirst as (present & P & S).
  intros vars' Hvars. rewrite Hv in Hvars. subst vars. rewrite Hvars in S. simpl.
  destruct (default (JObj []) (PyDict.get "variables" d)) as [| | | |s|l|d0] eqn:D;
    simpl in P; try discriminate; inversion P; subst present; clear P.
  - destruct (Py.contains "first" s); simpl in S; discriminate.
  - destruct (existsb (is_str "first") l); simpl in S; discriminate.
  - unfold PyDict.mem in *. destruct (PyDict.get "first" d0) as [x|] eqn:G; simpl in S.
    + inversion S; subst vars'. unfold PyDict.t in *. rewrite G. split; auto.
      intros d1 Hd. inversion Hd; subst d1. now rewrite G.
    + inversion S; subst vars'. rewrite DictFacts.get_set_eq. split; auto.
      intros d1 Hd. inversion Hd; subst d1. now rewrite G.
Qed.

Lemma plan_variables_first_repaired_witness :
  PyDict.mem "first" [("first", JInt 10)] = true.
Proof.
  pose (result := JObj [("query", JStr "query Q($first: Int) { pools(first: $first) { id } }")]).
  apply (plan_variables_first_repaired result
           (mkPlan "query Q($first: Int) { pools(first: $first) { id } }"
                   (JObj [("first", JInt 10)]) (JStr "")) "").
  - reflexivity.
  - reflexivity.
  - reflexivity.
Defined.

End BuilderFacts.

(** ** The query engine *)

Module EngineFacts.

Import Json Engine Samples.

Section Cache.

Variable hash : string -> Z.
Variable py_str : option json -> string.
Variable clock : nat -> Z.
Variable transport : nat -> string -> string -> option json -> option Data.

Local Notation "'run'" := (execute_query hash py_str clock transport).
Local Notation "'key_of'" := (cache_key hash py_str).

Lemma lookup_cache_calls key s :
  calls (snd (lookup_cache clock key s)) = calls s /\
  cache (snd (lookup_cache clock key s)) = cache s /\
  cache_ttl (snd (lookup_cache clock key s)) = cache_ttl s /\
  (ticks s <= ticks (snd (lookup_cache clock key s)))%nat.
Proof.
  unfold lookup_cache. destruct (cache s !! key) as [[d t]|]; simpl; auto.
Qed.

Lemma cleanup_cache_calls s :
  calls (cleanup_cache clock s) = calls s /\
  cache_ttl (cleanup_cache clock s) = cache_ttl s /\
  ticks (cleanup_cache clock s) = S (ticks s).
Proof. unfold cleanup_cache. simpl. auto. Qed.

(** One call of [execute_query] makes at most one request, and when it
    makes one it is the request it was asked. *)
Lemma execute_query_calls sid q vars use s :
  calls (snd (run sid q vars use s)) = calls s \/
  calls (snd (run sid q vars use s)) = (calls s ++ [(sid, q, vars)])%list.
Proof.
  unfold execute_query.
  destruct (use && Config.cache_enabled)%bool.
  - destruct (lookup_cache clock (key_of sid q vars) s) as [[d|] s1] eqn:L;
      pose proof (lookup_cache_calls (key_of sid q vars) s) as (Hc & _);
      rewrite L in Hc; simpl in Hc.
    + left. exact Hc.
    + right. destruct (transport _ sid q vars) as [d|]; simpl.
      * destruct (truthy_data d); simpl; now rewrite Hc.
      * now rewrite Hc.
  - right. destruct (transport _ sid q vars) as [d|]; simpl; auto.
    now rewrite andb_false_r.
Qed.

Lemma execute_query_ttl sid q vars use s :
  cache_ttl (snd (run sid q vars use s)) = cache_ttl s.
Proof.
  unfold execute_query.
  destruct (use && Config.cache_enabled)%bool.
  - destruct (lookup_cache clock (key_of sid q vars) s) as [[d|] s1] eqn:L;
      pose proof (lookup_cache_calls (key_of sid q vars) s) as (_ & _ & Ht & _);
      rewrite L in Ht; simpl in Ht; auto.
    destruct (transport _ sid q vars) as [d|]; simpl; auto.
    destruct (truthy_data d); simpl; auto.
  - destruct (transport _ sid q vars) as [d|]; simpl; auto.
    now rewrite andb_false_r.
Qed.

(** A call that finds no entry younger than the time to live makes the
    request. *)
Lemma execute_query_miss sid q vars s :
  (forall d t, cache s !! key_of sid q vars = Some (d, t) ->
     ttl_delta s <= clock (ticks s) - t) ->
  calls (snd (run sid q vars true s)) = (calls s ++ [(sid, q, vars)])%list /\
  fst (run sid q vars true s) = transport (length (calls s)) sid q vars.
Proof.
  intros Hold. unfold execute_query. simpl. unfold lookup_cache.
  destruct (cache s !! key_of sid q vars) as [[d t]|] eqn:L; simpl.
  - specialize (Hold d t eq_refl).
    destruct (Z.ltb_spec (clock (ticks s) - t) (ttl_delta s)) as [Hlt|_]; [lia|].
    destruct (transport _ sid q vars) as [d'|]; simpl; auto.
    destruct (truthy_data d'); simpl; auto.
  - destruct (transport _ sid q vars) as [d'|]; simpl; auto.
    destruct (truthy_data d'); simpl; auto.
Qed.

(** A call that finds an entry younger than the time to live returns
    it and makes no request. *)
Lemma execute_query_hit sid q vars s d t :
  cache s !! key_of sid q vars = Some (d, t) ->
  clock (ticks s) - t < ttl_delta s ->
  run sid q vars true s
  = (Some d, mkState (cache s) (cache_ttl s) (S (ticks s)) (calls s)).
Proof.
  intros L Hlt. unfold execute_query. simpl. unfold lookup_cache. rewrite L. simpl.
  destruct (Z.ltb_spec (clock (ticks s) - t) (ttl_delta s)) as [_|Hge]; [reflexivity|lia].
Qed.

(** After a miss answered by a non-empty result, the result is in the
    cache with the time of the store, provided the sweep that follows
    reads the clock no later than the time to live after it. *)
Lemma execute_query_stores sid q vars s d :
  (forall d0 t, cache s !! key_of sid q vars = Some (d0, t) ->
     ttl_delta s <= clock (ticks s) - t) ->
  transport (length (calls s)) sid q vars = Some d -> truthy_data d = true ->
  let s1 := snd (run sid q vars true s) in
  exists k, (ticks s <= k)%nat /\ ticks s1 = S (S k) /\
    (clock (S k) - clock k <= ttl_delta s ->
     cache s1 !! key_of sid q vars = Some (d, clock k)).
Proof.
  intros Hold Ht Hd. unfold execute_query. simpl. unfold lookup_cache.
  destruct (cache s !! key_of sid q vars) as [[d0 t]|] eqn:L; simpl.
  - specialize (Hold d0 t eq_refl).
    destruct (Z.ltb_spec (clock (ticks s) - t) (ttl_delta s)) as [Hlt|_]; [lia|].
    simpl. rewrite Ht, Hd. simpl. exists (S (ticks s)). repeat split; [lia|].
    intros Hsweep. apply map_lookup_filter_Some_2; [apply lookup_insert_eq|].
    simpl. exact Hsweep.
  - rewrite Ht, Hd. simpl. exists (ticks s). repeat split; [lia|].
    intros Hsweep. apply map_lookup_filter_Some_2; [apply lookup_insert_eq|].
    simpl. exact Hsweep.
Qed.

(** The entry a storing call leaves at its key, when the sweep keeps
    one, is the result it returned, stamped with the clock reading of
    the store. *)
Lemma execute_query_stamp sid q vars s d :
  (forall d0 t, cache s !! key_of sid q vars = Some (d0, t) ->
     ttl_delta s <= clock (ticks s) - t) ->
  transport (length (calls s)) sid q vars = Some d -> truthy_data d = true ->
  let s1 := snd (run sid q vars true s) in
  (2 <= ticks s1)%nat /\ (ticks s <= ticks s1 - 2)%nat /\
  forall d' t, cache s1 !! key_of sid q vars = Some (d', t) ->
    d' = d /\ t = clock (ticks s1 - 2).
Proof.
  intros Hold Ht Hd. unfold execute_query. simpl. unfold lookup_cache.
  destruct (cache s !! key_of sid q vars) as [[d0 t]|] eqn:L; simpl.
  - specialize (Hold d0 t eq_refl).
    destruct (Z.ltb_spec (clock (ticks s) - t) (ttl_delta s)) as [Hlt|_]; [lia|].
    simpl. rewrite Ht, Hd. simpl. split; [lia|]. split; [lia|].
    intros d' t' H. apply map_lookup_filter_Some in H as [Hl _].
    rewrite lookup_insert_eq in Hl. injection Hl as <- <-.
    rewrite ?Nat.sub_0_r. now split.
  - rewrite Ht, Hd. simpl. split; [lia|]. split; [lia|].
    intros d' t' H. apply map_lookup_filter_Some in H as [Hl _].
    rewrite lookup_insert_eq in Hl. injection Hl as <- <-.
    rewrite ?Nat.sub_0_r. now split.
Qed.

(** A miss that is answered by nothing, or by an empty result, leaves
    the cache and its time to live as they were. *)
Lemma execute_query_keeps sid q vars s :
  (forall d0 t, cache s !! key_of sid q vars = Some (d0, t) ->
     ttl_delta s <= clock (ticks s) - t) ->
  transport (length (calls s)) sid q vars = None \/
  transport (length (calls s)) sid q vars = Some [] ->
  let s1 := snd (run sid q vars true s) in
  cache s1 = cache s /\ (ticks s <= ticks s1)%nat.
Proof.
  intros Hold Ht. unfold execute_query. simpl. unfold lookup_cache.
  destruct (cache s !! key_of sid q vars) as [[d0 t]|] eqn:L; simpl.
  - specialize (Hold d0 t eq_refl).
    destruct (Z.ltb_spec (clock (ticks s) - t) (ttl_delta s)) as [Hlt|_]; [lia|].
    simpl. destruct Ht as [-> | ->]; simpl; split; auto.
  - destruct Ht as [-> | ->]; simpl; split; auto.
Qed.

(** C2 (amended): two identical calls with the cache on, under a clock
    that never goes backwards. (1) When the first returns a non-empty
    result and the second reads the clock less than the time to live
    after the first began, at most one request is made in total.
    (2) When the first is not answered by the cache it makes the
    request, and then: a non-empty result is stored with the clock
    reading of the store, the second call makes the request again when
    it reads the clock the time to live or more after that reading,
    and is answered by the stored result with no request when it reads
    it earlier; a [None] or empty result is not stored, and the second
    call makes the request again. (3) When the first is answered by an
    entry of the cache, the second makes the request once it reads the
    clock the time to live or more after that entry was stored. *)
Theorem execute_query_twice sid q vars (s : State) :
  (forall i j : nat, (i <= j)%nat -> clock i <= clock j) ->
  let r1 := fst (run sid q vars true s) in
  let s1 := snd (run sid q vars true s) in
  let r2 := fst (run sid q vars true s1) in
  let s2 := snd (run sid q vars true s1) in
  ((exists d, r1 = Some d /\ truthy_data d = true) ->
   clock (ticks s1) - clock (ticks s) < ttl_delta s ->
   (requests_between s s2 <= 1)%nat) /\
  ((forall d t, cache s !! key_of sid q vars = Some (d, t) ->
      ttl_delta s <= clock (ticks s) - t) ->
   calls s1 = (calls s ++ [(sid, q, vars)])%list /\
   (forall d, r1 = Some d -> truthy_data d = true ->
      (2 <= ticks s1)%nat /\
      (ttl_delta s <= clock (ticks s1) - clock (ticks s1 - 2) ->
       calls s2 = (calls s1 ++ [(sid, q, vars)])%list) /\
      (clock (ticks s1) - clock (ticks s1 - 2) < ttl_delta s ->
       calls s2 = calls s1 /\ r2 = Some d)) /\
   (r1 = None \/ r1 = Some [] ->
    calls s2 = (calls s1 ++ [(sid, q, vars)])%list)) /\
  (forall d t, cache s !! key_of sid q vars = Some (d, t) ->
     clock (ticks s) - t < ttl_delta s ->
     r1 = Some d /\ calls s1 = calls s /\
     (ttl_delta s <= clock (ticks s1) - t ->
      calls s2 = (calls s1 ++ [(sid, q, vars)])%list)).
Proof.
  intros Hmono r1 s1 r2 s2.
  assert (Httl : ttl_delta s1 = ttl_delta s).
  { unfold ttl_delta, s1. now rewrite execute_query_ttl. }
  split; [|split].
  - intros (d & Hr1 & Hd) Hwithin. unfold requests_between.
    destruct (cache s !! key_of sid q vars) as [[d0 t0]|] eqn:L.
    + destruct (Z.lt_ge_cases (clock (ticks s) - t0) (ttl_delta s)) as [Hlt|Hge].
      * (* the first call is answered by the cache *)
        pose proof (execute_query_hit sid q vars s d0 t0 L Hlt) as Hhit.
        assert (calls s1 = calls s) as Hc1 by (unfold s1; now rewrite Hhit).
        destruct (execute_query_calls sid q vars true s1) as [Hc|Hc];
          fold s2 in Hc; rewrite Hc, Hc1; [lia|].
        rewrite length_app. simpl. lia.
      * (* the first call finds an old entry *)
        assert (Hold : forall d1 t, cache s !! key_of sid q vars = Some (d1, t) ->
                   ttl_delta s <= clock (ticks s) - t).
        { intros d1 t Hl. rewrite L in Hl. injection Hl as _ <-. exact Hge. }
        destruct (execute_query_miss sid q vars s Hold) as (Hc1 & Hres).
        fold s1 in Hc1. fold r1 in Hres. rewrite Hr1 in Hres. symmetry in Hres.
        destruct (execute_query_stores sid q vars s d Hold Hres Hd) as (k & Hk & Hticks & Hin).
        fold s1 in Hticks, Hin. rewrite Hticks in Hwithin.
        pose proof (Hmono (ticks s) k Hk). pose proof (Hmono (S k) (S (S k)) ltac:(lia)).
        pose proof (Hmono k (S k) ltac:(lia)).
        specialize (Hin ltac:(lia)).
        assert (Hfresh : clock (ticks s1) - clock k < ttl_delta s1).
        { rewrite Hticks, Httl. lia. }
        pose proof (execute_query_hit sid q vars s1 d (clock k) Hin Hfresh) as Hhit.
        unfold s2. rewrite Hhit. simpl. rewrite Hc1, length_app. simpl. lia.
    + assert (Hold : forall d1 t, cache s !! key_of sid q vars = Some (d1, t) ->
                 ttl_delta s <= clock (ticks s) - t).
      { intros d1 t Hl. rewrite L in Hl. discriminate. }
      destruct (execute_query_miss sid q vars s Hold) as (Hc1 & Hres).
      fold s1 in Hc1. fold r1 in Hres. rewrite Hr1 in Hres. symmetry in Hres.
      destruct (execute_query_stores sid q vars s d Hold Hres Hd) as (k & Hk & Hticks & Hin).
      fold s1 in Hticks, Hin. rewrite Hticks in Hwithin.
      pose proof (Hmono (ticks s) k Hk). pose proof (Hmono (S k) (S (S k)) ltac:(lia)).
      pose proof (Hmono k (S k) ltac:(lia)).
      specialize (Hin ltac:(lia)).
      assert (Hfresh : clock (ticks s1) - clock k < ttl_delta s1).
      { rewrite Hticks, Httl. lia. }
      pose proof (execute_query_hit sid q vars s1 d (clock k) Hin Hfresh) as Hhit.
      unfold s2. rewrite Hhit. simpl. rewrite Hc1, length_app. simpl. lia.
  - intros Hold.
    destruct (execute_query_miss sid q vars s Hold) as (Hc1 & Hres).
    fold s1 in Hc1. fold r1 in Hres. split; [exact Hc1|]. split.
    + intros d Hr1 Hd. rewrite Hr1 in Hres. symmetry in Hres.
      destruct (execute_query_stamp sid q vars s d Hold Hres Hd) as (Htwo & Hk & Hstamp).
      fold s1 in Htwo, Hk, Hstamp. split; [exact Htwo|]. split.
      * intros Hexp. apply execute_query_miss.
        intros d' t Hl. destruct (Hstamp d' t Hl) as [_ ->]. now rewrite Httl.
      * intros Hfresh.
        destruct (execute_query_stores sid q vars s d Hold Hres Hd) as (k & _ & Hticks & Hin).
        fold s1 in Hticks, Hin.
        assert (Hk2 : (ticks s1 - 2 = k)%nat) by lia. rewrite Hk2 in Hfresh.
        pose proof (Hmono (S k) (ticks s1) ltac:(lia)).
        specialize (Hin ltac:(lia)).
        assert (Hfresh' : clock (ticks s1) - clock k < ttl_delta s1) by now rewrite Httl.
        pose proof (execute_query_hit sid q vars s1 d (clock k) Hin Hfresh') as Hhit.
        unfold s2, r2. rewrite Hhit. simpl. auto.
    + intros Hr1.
      assert (Ht : transport (length (calls s)) sid q vars = None \/
                   transport (length (calls s)) sid q vars = Some []).
      { rewrite <- Hres. exact Hr1. }
      destruct (execute_query_keeps sid q vars s Hold Ht) as (Hcache & Hticks).
      fold s1 in Hcache, Hticks. apply execute_query_miss.
      intros d t Hl. rewrite Hcache in Hl. rewrite Httl.
      pose proof (Hold d t Hl). pose proof (Hmono _ _ Hticks). lia.
  - intros d t L Hlt.
    pose proof (execute_query_hit sid q vars s d t L Hlt) as Hhit.
    assert (Hs1 : s1 = mkState (cache s) (cache_ttl s) (S (ticks s)) (calls s)).
    { unfold s1. now rewrite Hhit. }
    split; [unfold r1; now rewrite Hhit|]. split; [now rewrite Hs1|].
    intros Hexp. apply execute_query_miss.
    intros d' t' Hl. rewrite Httl. rewrite Hs1 in Hl. simpl in Hl.
    rewrite L in Hl. injection Hl as _ <-. exact Hexp.
Qed.

End Cache.

Lemma execute_query_twice_witness :
  (requests_between init
     (snd (execute_query toy_hash toy_str seconds answering "sg" "{ pools { id } }" None true
        (snd (execute_query toy_hash toy_str seconds answering "sg" "{ pools { id } }" None true
                init)))) <= 1)%nat /\
  length (calls
     (snd (execute_query toy_hash toy_str ten_minutes answering "sg" "{ pools { id } }" None true
        (snd (execute_query toy_hash toy_str ten_minutes answering "sg" "{ pools { id } }" None
                true init))))) = 2%nat /\
  length (calls
     (snd (execute_query toy_hash toy_str seconds failing "sg" "{ pools { id } }" None true
        (snd (execute_query toy_hash toy_str seconds failing "sg" "{ pools { id } }" None
                true init))))) = 2%nat.
Proof.
  assert (Hsec : forall i j : nat, (i <= j)%nat -> seconds i <= seconds j).
  { intros i j Hij. unfold seconds. lia. }
  assert (Hten : forall i j : nat, (i <= j)%nat -> ten_minutes i <= ten_minutes j).
  { intros i j Hij. unfold ten_minutes.
    destruct (Nat.ltb_spec i 2), (Nat.ltb_spec j 2); lia. }
  assert (Hempty : forall (d : Data) (t : Z),
            cache init !! cache_key toy_hash toy_str "sg" "{ pools { id } }" None = Some (d, t) ->
            ttl_delta init <= 0 - t).
  { intros d t Hl. vm_compute in Hl. discriminate. }
  split; [|split].
  - destruct (execute_query_twice toy_hash toy_str seconds answering "sg" "{ pools { id } }"
                None init Hsec) as (H1 & _).
    apply H1.
    + exists one_pool. split; reflexivity.
    + vm_compute. reflexivity.
  - destruct (execute_query_twice toy_hash toy_str ten_minutes answering "sg"
                "{ pools { id } }" None init Hten) as (_ & H2 & _).
    destruct (H2 Hempty) as (_ & Hstored & _).
    destruct (Hstored one_pool eq_refl eq_refl) as (_ & Hexp & _).
    rewrite Hexp; [vm_compute; reflexivity|]. vm_compute. discriminate.
  - destruct (execute_query_twice toy_hash toy_str seconds failing "sg" "{ pools { id } }"
                None init Hsec) as (_ & H2 & _).
    destruct (H2 Hempty) as (_ & _ & Hnone).
    rewrite Hnone; [vm_compute; reflexivity|]. left. reflexivity.
Defined.

(** C2 (as stated): when the gateway gives up, nothing is cached, and
    two identical calls one second apart make two requests. *)
Lemma execute_query_twice_failing :
  ~ (requests_between init
       (snd (execute_query toy_hash toy_str seconds failing "sg" "{ pools { id } }" None true
          (snd (execute_query toy_hash toy_str seconds failing "sg" "{ pools { id } }" None true
                  init)))) <= 1)%nat.
Proof. vm_compute. lia. Qed.

End EngineFacts.

(** ** The natural language pipeline *)

Module PipelineFacts.

Import Json Engine Samples.

Section Stages.

Variable St : Type.
Variable builder : string -> Builder.ProtocolContext -> string + Builder.Plan.
Variable executor : string -> string -> option json -> St -> (string + option Data) * St.
Variable formatter : Data -> json -> string -> string + string.

Local Notation "'nlq'" := (execute_natural_language_query St builder executor formatter).

Lemma stage_raises_try context s e :
  stage_raises St builder executor formatter context s e ->
  fst (nl_try St builder executor formatter context s) = inl e.
Proof.
  intros (protocol & network & user_query & Hp & Hn & Hq & H).
  unfold nl_try. rewrite Hp, Hn, Hq.
  destruct H as [Hb|(plan & sid & Hb & Ht & Hs & H)].
  - now rewrite Hb.
  - rewrite Hb, Ht, Hs. simpl.
    destruct (executor sid _ _ s) as [[e'|[result|]] s'] eqn:Ex; simpl in H.
    + destruct H as [H|(result & H & _)]; [|discriminate]. simpl. congruence.
    + destruct H as [H|(result' & H & Hd & Hf)]; [discriminate|].
      injection H as ->. rewrite Hd. simpl. now rewrite Hf.
    + destruct H as [H|(result' & H & _)]; discriminate.
Qed.

(** C3 (amended): when a stage raises, nothing is propagated: the
    result has [success] false, the text of the exception as its
    error, and as formatted text the failure banner followed by that
    text, which is not empty. *)
Theorem nl_query_stage_exception context (s : St) (e : string) :
  stage_raises St builder executor formatter context s e ->
  let r := fst (nlq context s) in
  success r = false /\ error r = Some e /\ data r = None /\
  formatted_result r = banner +:+ e /\ formatted_result r <> "".
Proof.
  intros H. apply stage_raises_try in H.
  unfold execute_natural_language_query.
  destruct (nl_try St builder executor formatter context s) as [[e'|r] s']; simpl in *;
    [|discriminate].
  injection H as ->. repeat split; discriminate.
Qed.

(** X15: The failures that are not exceptions do leave the formatted text
    empty. *)
Lemma nl_query_failure_formatted context (s : St) :
  let r := fst (nlq context s) in
  success r = false ->
  formatted_result r = "" \/ exists e, formatted_result r = banner +:+ e.
Proof.
  unfold execute_natural_language_query.
  destruct (nl_try St builder executor formatter context s) as [[e|r] s'] eqn:T; simpl.
  - intros _. right. now exists e.
  - intros Hs. left. unfold nl_try in T.
    repeat match type of T with
    | context [match ?x with _ => _ end] => destruct x eqn:?
    end; inversion T; subst; simpl in *; auto; discriminate.
Qed.

End Stages.

Lemma nl_query_failure_formatted_witness :
  formatted_result
    (fst (execute_natural_language_query unit
            (fun _ _ => inr (Builder.get_fallback_query "USDC/ETH pool"))
            (fun _ _ _ s => (inr None, s))
            (fun _ _ _ => inr "") engine_context tt)) = "" \/
  exists e,
    formatted_result
      (fst (execute_natural_language_query unit
              (fun _ _ => inr (Builder.get_fallback_query "USDC/ETH pool"))
              (fun _ _ _ s => (inr None, s))
              (fun _ _ _ => inr "") engine_context tt)) = banner +:+ e.
Proof.
  apply (nl_query_failure_formatted unit
           (fun _ _ => inr (Builder.get_fallback_query "USDC/ETH pool"))
           (fun _ _ _ s => (inr None, s)) (fun _ _ _ => inr "") engine_context tt).
  reflexivity.
Defined.

Lemma nl_query_stage_exception_witness :
  formatted_result
    (fst (execute_natural_language_query unit
            (fun _ _ => inl "model quota exceeded")
            (fun _ _ _ s => (inr None, s))
            (fun _ _ _ => inr "") engine_context tt))
  = banner +:+ "model quota exceeded".
Proof.
  apply (nl_query_stage_exception unit (fun _ _ => inl "model quota exceeded")
           (fun _ _ _ s => (inr None, s)) (fun _ _ _ => inr "") engine_context tt
           "model quota exceeded").
  exists "uniswap", "ethereum", "USDC/ETH pool".
  repeat split; try reflexivity. left. reflexivity.
Defined.

(** C3 (as stated): the formatter raising on the data that came back
    leaves a formatted text that is not empty. *)
Lemma nl_query_exception_formatted_nonempty :
  let r := fst (execute_natural_language_query unit
                  (fun _ _ => inr (Builder.get_fallback_query "USDC/ETH pool"))
                  (fun _ _ _ s => (inr (Some one_pool), s))
                  (fun _ _ _ => inl "could not convert string to float: 'n/a'")
                  engine_context tt) in
  success r = false /\
  error r = Some "could not convert string to float: 'n/a'" /\
  formatted_result r <> "".
Proof. vm_compute. repeat split; discriminate. Qed.

End PipelineFacts.

(** ** The protocol analyzer *)

Module AnalyzerFacts.

Import Analyzer.

Lemma scan_protocols_none aliases ql found :
  existsb (fun a => Py.contains (fst a) ql) aliases = false ->
  scan_protocols aliases ql found = found.
Proof.
  revert found. induction aliases as [|[alias std] rest IH]; intros found H; simpl in *; auto.
  apply orb_false_iff in H as [Ha Hr]. rewrite Ha. now apply IH.
Qed.

Section Generic.

Context `{U : Py.Unicode}.

(** C4 (amended): when the query has no protocol alias and none of
    the DEX or lending keywords, and the rules are what answers (no
    model client, or the model path raised), the result has no mention
    and confidence 0. *)
Theorem analyze_no_token_no_keyword llm_analyze (user_query : string) :
  no_protocol_token user_query = true ->
  Builder.any_in dex_keywords (Py.str_lower user_query) = false ->
  Builder.any_in lending_keywords (Py.str_lower user_query) = false ->
  (forall f, llm_analyze = Some f -> exists e, f user_query = inl e) ->
  analyze_query llm_analyze user_query = mkAnalysis [] user_query 0%Q.
Proof.
  intros Htok Hdex Hlend Hllm.
  assert (Hrule : rule_based_analyze user_query = mkAnalysis [] user_query 0%Q).
  { unfold rule_based_analyze, no_protocol_token in *.
    apply negb_true_iff in Htok.
    rewrite (scan_protocols_none _ _ [] Htok). cbn [map].
    destruct (search_version _); cbn [map]; now rewrite Hdex, Hlend. }
  unfold analyze_query. destruct llm_analyze as [f|]; [|exact Hrule].
  destruct (Hllm f eq_refl) as [e ->]. exact Hrule.
Qed.

End Generic.

#[local] Existing Instance Plain.text.

(** C4 (as stated): a query without any protocol name but with a DEX
    keyword is answered with two default protocols at confidence one
    half. *)
Lemma analyze_keyword_seeds_protocols :
  no_protocol_token "best pools" = true /\
  map protocol (protocols (analyze_query None "best pools")) = ["uniswap"; "sushiswap"] /\
  Qeq (overall_confidence (analyze_query None "best pools")) (1 # 2).
Proof. vm_compute. repeat split; reflexivity. Qed.

Lemma analyze_no_token_no_keyword_witness :
  analyze_query (Some (fun _ => inl "model unavailable")) "What is the weather today?"
  = mkAnalysis [] "What is the weather today?" 0%Q.
Proof.
  apply analyze_no_token_no_keyword; try reflexivity.
  intros f [= <-]. now exists "model unavailable".
Defined.

End AnalyzerFacts.

(** ** Discovery *)

Module DiscoveryFacts.

Import Json Discovery.

Section Generic.

Context `{U : Py.Unicode}.

(** C9: without a gateway credential (none passed, none configured)
    the discovery is built with no endpoint, and [find] returns [None]
    at once, posting nothing. *)
Theorem find_without_credential http_post float_ok
  (api_key_arg : option string) (GRAPH_API_KEY protocol network : string)
  (version : option string) (log : list Post) :
  Py.truthy_opt api_key_arg = false -> Py.truthy GRAPH_API_KEY = false ->
  exists d, init api_key_arg GRAPH_API_KEY = inr d /\ endpoint d = None /\
    find http_post float_ok d protocol network version log = (inr None, log).
Proof.
  intros Harg Hkey. unfold init. rewrite Harg, Hkey. simpl.
  eexists. split; [reflexivity|]. split; reflexivity.
Qed.

End Generic.

#[local] Existing Instance Plain.text.

Lemma find_without_credential_witness :
  exists d, init None "" = inr d /\ endpoint d = None /\
    find (fun _ _ _ _ => inl "unreachable") (fun _ => true) d "uniswap" "ethereum" (Some "v3") []
    = (inr None, []).
Proof.
  apply (find_without_credential (fun _ _ _ _ => inl "unreachable") (fun _ => true)
           None "" "uniswap" "ethereum" (Some "v3") []); reflexivity.
Defined.

End DiscoveryFacts.

(** ** The batch tool *)

Module ToolsFacts.

Import Tools Samples.

Section Generic.

Context `{U : Py.Unicode}.

Lemma query_list_all_blank queries :
  Forall (fun part => Py.str_strip part = "") (Py.split ";" queries) ->
  query_list queries = [].
Proof.
  unfold query_list. induction (Py.split ";" queries) as [|part rest IH]; intros H; auto.
  inversion H as [|? ? Hpart Hrest]; subst. simpl. rewrite filter_cons, Hpart. simpl.
  destruct (decide (false = true)); [discriminate|]. now apply IH.
Qed.

(** C10 (amended): with [GRAPH_API_KEY] set, more than five
    non-blank parts give the message about too many queries, parts
    that are all blank the message asking for a query, and neither
    runs a query; without the key both give the message about it. *)
Theorem multi_query_limits (St : Type) (smart : string -> St -> string * St)
  (GRAPH_API_KEY queries : string) (st : St) :
  (Py.truthy GRAPH_API_KEY = true ->
   ((5 < length (query_list queries))%nat ->
    graph_multi_query St smart GRAPH_API_KEY queries st = (too_many_queries, st)) /\
   (Forall (fun part => Py.str_strip part = "") (Py.split ";" queries) ->
    graph_multi_query St smart GRAPH_API_KEY queries st = (no_query, st))) /\
  (Py.truthy GRAPH_API_KEY = false ->
   graph_multi_query St smart GRAPH_API_KEY queries st = (Config.api_key_missing, st)).
Proof.
  unfold graph_multi_query. split.
  - intros ->. simpl. split.
    + intros H. apply Nat.ltb_lt in H. now rewrite H.
    + intros H. now rewrite (query_list_all_blank _ H).
  - now intros ->.
Qed.

End Generic.

#[local] Existing Instance Plain.text.

(** C10 (as stated): without [GRAPH_API_KEY] six queries are answered
    with the message about the key, not the one about their number. *)
Lemma multi_query_without_key :
  length (query_list "a;b;c;d;e;f") = 6%nat /\
  fst (graph_multi_query (list string) recording "" "a;b;c;d;e;f" []) <> too_many_queries /\
  fst (graph_multi_query (list string) recording "" ";;" []) <> no_query.
Proof. vm_compute. repeat split; discriminate. Qed.

Lemma multi_query_limits_witness :
  graph_multi_query (list string) recording "key" "a;b;c;d;e;f" [] = (too_many_queries, []) /\
  graph_multi_query (list string) recording "key" " ; ;" [] = (no_query, []) /\
  graph_multi_query (list string) recording "" "a;b" [] = (Config.api_key_missing, []).
Proof.
  destruct (multi_query_limits (list string) recording "key" "a;b;c;d;e;f" []) as [H1 _].
  destruct (multi_query_limits (list string) recording "key" " ; ;" []) as [H2 _].
  destruct (multi_query_limits (list string) recording "" "a;b" []) as [_ H3].
  split; [|split].
  - apply H1; [reflexivity|]. vm_compute. lia.
  - apply H2; [reflexivity|]. vm_compute. repeat constructor.
  - apply H3. reflexivity.
Defined.

End ToolsFacts.

(** ** Further properties of the registry *)

Module RegistryMore.

Import Registry Samples.

Lemma find_fuzzy_keys p n c : PyDict.keys (snd (find_fuzzy p n c)) = PyDict.keys c.
Proof.
  unfold PyDict.keys. induction c as [|[k r] rest IH]; simpl; auto.
  destruct (String.eqb (protocol r) p && String.eqb (network r) n)%bool; simpl; auto.
  destruct (find_fuzzy p n rest) as [res rest']. simpl in *. congruence.
Qed.

Lemma find_fuzzy_some p n c k r :
  (k, r) ∈ c -> protocol r = p -> network r = n ->
  exists sid, fst (find_fuzzy p n c) = Some sid.
Proof.
  intros Hin Hp Hn. induction c as [|[k0 r0] rest IH]; [inversion Hin|].
  simpl. destruct (String.eqb (protocol r0) p && String.eqb (network r0) n)%bool eqn:E.
  - simpl. eauto.
  - apply elem_of_cons in Hin as [Heq|Hin].
    + injection Heq as <- <-. subst. now rewrite !String.eqb_refl in E.
    + destruct (IH Hin) as [sid Hs]. destruct (find_fuzzy p n rest). simpl in *. eauto.
Qed.

Lemma find_fuzzy_none p n c :
  fst (find_fuzzy p n c) = None ->
  snd (find_fuzzy p n c) = c /\
  forall k r, (k, r) ∈ c -> ~ (protocol r = p /\ network r = n).
Proof.
  induction c as [|[k0 r0] rest IH]; simpl.
  - intros _. split; auto. intros k r H. inversion H.
  - destruct (String.eqb (protocol r0) p && String.eqb (network r0) n)%bool eqn:E;
      simpl; [discriminate|].
    destruct (find_fuzzy p n rest) as [res rest'] eqn:F. simpl in *.
    intros ->. destruct (IH eq_refl) as [-> Hno]. split; auto.
    intros k r Hin [Hp Hn]. apply elem_of_cons in Hin as [Heq|Hin].
    + injection Heq as -> ->. subst. now rewrite !String.eqb_refl in E.
    + now apply (Hno k r Hin).
Qed.

Lemma total_alter_bump k c r :
  PyDict.get k c = Some r -> total_count (PyDict.alter bump k c) = total_count c + 1.
Proof.
  induction c as [|[k0 r0] rest IH]; simpl; [discriminate|].
  destruct (String.eqb k k0); simpl.
  - intros _. lia.
  - intros H. rewrite (IH H). lia.
Qed.

Lemma total_find_fuzzy p n c sid :
  fst (find_fuzzy p n c) = Some sid ->
  total_count (snd (find_fuzzy p n c)) = total_count c + 1.
Proof.
  induction c as [|[k0 r0] rest IH]; simpl; [discriminate|].
  destruct (String.eqb (protocol r0) p && String.eqb (network r0) n)%bool; simpl.
  - intros _. lia.
  - destruct (find_fuzzy p n rest) as [res rest']. simpl in *.
    intros H. rewrite (IH H). lia.
Qed.

(** X2: Whatever the version asked for, [find] answers as soon as some
    record has the protocol and the network. *)
Theorem find_answers_recorded_pair p n v (c : cache) k r :
  (k, r) ∈ c -> protocol r = p -> network r = n ->
  exists sid, fst (find p n v c) = Some sid.
Proof.
  intros Hin Hp Hn.
  assert (Hnv : exists sid, fst (find_no_version p n c) = Some sid).
  { unfold find_no_version. destruct (PyDict.get _ c); simpl; eauto.
    eapply find_fuzzy_some; eauto. }
  unfold find. destruct (Py.truthy_opt v); auto.
  destruct (PyDict.get _ c); simpl; eauto.
Qed.

Lemma find_answers_recorded_pair_witness :
  exists sid,
    fst (find "uniswap" "ethereum" (Some "v9")
           seeded)
    = Some sid.
Proof.
  eapply (find_answers_recorded_pair "uniswap" "ethereum" (Some "v9") seeded
            "uniswap-ethereum-v3" uniswap_record).
  - apply list_elem_of_here.
  - reflexivity.
  - reflexivity.
Defined.

(** X3: A miss changes nothing, and happens only when no record has the
    protocol and the network. *)
Theorem find_miss_leaves_registry p n v (c : cache) :
  fst (find p n v c) = None ->
  snd (find p n v c) = c /\
  forall k r, (k, r) ∈ c -> ~ (protocol r = p /\ network r = n).
Proof.
  assert (Hnv : fst (find_no_version p n c) = None ->
                snd (find_no_version p n c) = c /\
                forall k r, (k, r) ∈ c -> ~ (protocol r = p /\ network r = n)).
  { unfold find_no_version. destruct (PyDict.get _ c); simpl; [discriminate|].
    apply find_fuzzy_none. }
  unfold find. destruct (Py.truthy_opt v); auto.
  destruct (PyDict.get _ c); simpl; [discriminate|auto].
Qed.

Lemma find_miss_leaves_registry_witness :
  snd (find "uniswap" "polygon" None seeded) = seeded.
Proof. apply find_miss_leaves_registry. reflexivity. Defined.

(** X4: A hit counts exactly one look-up: the counts of the registry add
    up to one more than before, and no key appears or disappears. *)
Theorem find_hit_counts_once p n v (c : cache) sid :
  fst (find p n v c) = Some sid ->
  total_count (snd (find p n v c)) = total_count c + 1 /\
  PyDict.keys (snd (find p n v c)) = PyDict.keys c.
Proof.
  assert (Hnv : forall sid, fst (find_no_version p n c) = Some sid ->
                total_count (snd (find_no_version p n c)) = total_count c + 1 /\
                PyDict.keys (snd (find_no_version p n c)) = PyDict.keys c).
  { intros sid'. unfold find_no_version. destruct (PyDict.get _ c) eqn:G; simpl.
    - intros _. split; [eapply total_alter_bump; eauto|apply DictFacts.keys_alter].
    - intros H. split; [eapply total_find_fuzzy; eauto|apply find_fuzzy_keys]. }
  unfold find. destruct (Py.truthy_opt v); [|apply Hnv].
  destruct (PyDict.get _ c) eqn:G; simpl; [|apply Hnv].
  intros _. split; [eapply total_alter_bump; eauto|apply DictFacts.keys_alter].
Qed.

Lemma find_hit_counts_once_witness :
  total_count (snd (find "uniswap" "ethereum" None seeded)) = total_count seeded + 1.
Proof.
  apply (find_hit_counts_once "uniswap" "ethereum" None seeded "ID123"). reflexivity.
Defined.

Section Generic.

Context `{U : Py.Unicode}.

(** X5: Every operation keeps the registry a dictionary: no key twice. *)
Theorem step_keeps_keys_unique (o : op) (c : cache) :
  PyDict.wf c -> PyDict.wf (step o c).
Proof.
  intros Hwf. destruct o as [p n v|p n sid nm v kw now|p n v|p n hs v now]; simpl.
  - assert (Hnv : PyDict.wf (snd (find_no_version p n c))).
    { unfold find_no_version. destruct (PyDict.get _ c); simpl.
      - now apply DictFacts.wf_alter.
      - unfold PyDict.wf. now rewrite find_fuzzy_keys. }
    unfold find. destruct (Py.truthy_opt v); auto.
    destruct (PyDict.get _ c); simpl; auto. now apply DictFacts.wf_alter.
  - unfold add. destruct (kw_other kw); simpl; auto. now apply DictFacts.wf_set.
  - unfold remove. destruct (PyDict.mem _ c); simpl; auto. now apply DictFacts.wf_del.
  - unfold update_health. destruct (PyDict.mem _ c); auto. now apply DictFacts.wf_alter.
Qed.


Lemma del_set_absent {V} k (v : V) d :
  PyDict.get k d = None -> PyDict.del k (PyDict.set k v d) = d.
Proof.
  induction d as [|[k0 v0] rest IH]; simpl.
  - now rewrite String.eqb_refl.
  - destruct (String.eqb k k0) eqn:E; [discriminate|]. simpl. rewrite E.
    intros H. now rewrite IH.
Qed.

(** X6: Adding a mapping under lower case names at a key that is free and
    removing it again gives the registry back. *)
Theorem add_then_remove_restores p n sid nm v kw now (c : cache) :
  Py.str_lower p = p -> Py.str_lower n = n -> Py.str_lower <$> v = v ->
  kw_other kw = [] -> PyDict.get (make_key p n v) c = None ->
  remove p n v (snd (add p n sid nm v kw now c)) = (true, c).
Proof.
  intros Hp Hn Hv Hkw Hfree. unfold add. rewrite Hkw. simpl.
  rewrite (RegistryFacts.cache_key_new_record _ _ _ _ _ _ _ Hp Hn Hv).
  unfold remove, PyDict.mem. rewrite DictFacts.get_set_eq.
  now rewrite del_set_absent.
Qed.


Lemma sid_alter (f : SubgraphRecord -> SubgraphRecord) k k' c :
  (forall r, subgraph_id (f r) = subgraph_id r) ->
  subgraph_id <$> PyDict.get k (PyDict.alter f k' c) = subgraph_id <$> PyDict.get k c.
Proof.
  intros Hf. destruct (String.eqb k' k) eqn:E.
  - apply String.eqb_eq in E. subst k'. rewrite DictFacts.get_alter_eq.
    destruct (PyDict.get k c); simpl; auto. now rewrite Hf.
  - apply String.eqb_neq in E. now rewrite DictFacts.get_alter_ne.
Qed.

Lemma sid_find_fuzzy k p n c :
  subgraph_id <$> PyDict.get k (snd (find_fuzzy p n c)) = subgraph_id <$> PyDict.get k c.
Proof.
  induction c as [|[k0 r] rest IH]; simpl; auto.
  destruct (String.eqb (protocol r) p && String.eqb (network r) n)%bool; simpl.
  - now destruct (String.eqb k k0).
  - destruct (find_fuzzy p n rest) as [res rest']. simpl in *.
    now destruct (String.eqb k k0).
Qed.

(** X7: The identifier stored at a key is stable: [find] and
    [update_health] never change it, and [add] and [remove] change it
    only at the key they write or delete. *)
Theorem subgraph_id_stable (c : cache) (o : op) (k : string) :
  is_lookup o = true \/ k <> target_key o ->
  subgraph_id <$> PyDict.get k (step o c) = subgraph_id <$> PyDict.get k c.
Proof.
  intros H. destruct o as [p n v|p n sid nm v kw now|p n v|p n hs v now]; simpl in *.
  - assert (Hnv : subgraph_id <$> PyDict.get k (snd (find_no_version p n c))
                  = subgraph_id <$> PyDict.get k c).
    { unfold find_no_version. destruct (PyDict.get (p +:+ "-" +:+ n) c); simpl.
      - now apply sid_alter.
      - apply sid_find_fuzzy. }
    unfold find. destruct (Py.truthy_opt v); auto.
    destruct (PyDict.get (p +:+ "-" +:+ n +:+ "-" +:+ default "" v) c); simpl; auto.
    now apply sid_alter.
  - destruct H as [H|H]; [discriminate|].
    unfold add. destruct (kw_other kw); simpl; auto.
    now rewrite DictFacts.get_set_ne by congruence.
  - destruct H as [H|H]; [discriminate|].
    unfold remove. destruct (PyDict.mem _ c); simpl; auto.
    now rewrite DictFacts.get_del_ne by congruence.
  - unfold update_health. destruct (PyDict.mem _ c); auto. now apply sid_alter.
Qed.


End Generic.

#[local] Existing Instance Plain.text.

Lemma step_keeps_keys_unique_witness :
  PyDict.wf (step (OpAdd "Aave" "Polygon" "ID9" "Aave V3" (Some "v3") no_kwargs 7) []).
Proof. apply step_keeps_keys_unique. apply NoDup_nil_2. Defined.

Lemma add_then_remove_restores_witness :
  remove "aave" "polygon" (Some "v3")
    (snd (add "aave" "polygon" "ID9" "Aave V3" (Some "v3") no_kwargs 7 [])) = (true, []).
Proof. apply add_then_remove_restores; reflexivity. Defined.

Lemma subgraph_id_stable_witness :
  subgraph_id <$> PyDict.get "a-b"
    (step (OpUpdateHealth "a" "b" "healthy" None 9)
          counted)
  = Some "id".
Proof.
  rewrite (subgraph_id_stable counted
             (OpUpdateHealth "a" "b" "healthy" None 9) "a-b").
  - reflexivity.
  - left. reflexivity.
Defined.

Lemma distinct_elem x l : x ∈ distinct l <-> x ∈ l.
Proof.
  induction l as [|y r IH]; simpl; [reflexivity|].
  rewrite !elem_of_cons, list_elem_of_filter, IH. split.
  - intros [->|[_ H]]; auto.
  - intros [->|H]; auto. destruct (String.eqb y x) eqn:E.
    + apply String.eqb_eq in E. now left.
    + right. split; auto.
Qed.

Lemma distinct_nodup l : NoDup (distinct l).
Proof.
  induction l as [|y r IH]; simpl; [apply NoDup_nil_2|].
  apply NoDup_cons. split.
  - rewrite list_elem_of_filter. intros [H _]. now rewrite String.eqb_refl in H.
  - now apply NoDup_filter.
Qed.

(** X8: [get_all_protocols] lists each protocol of the registry once, and
    nothing else. *)
Theorem get_all_protocols_exact (c : cache) :
  NoDup (get_all_protocols c) /\
  forall p, p ∈ get_all_protocols c <-> exists k r, (k, r) ∈ c /\ protocol r = p.
Proof.
  unfold get_all_protocols. split; [apply distinct_nodup|].
  intros p. rewrite distinct_elem, list_elem_of_fmap. unfold PyDict.values. split.
  - intros (r & -> & Hr). apply list_elem_of_fmap in Hr as ([k r'] & -> & Hin). eauto.
  - intros (k & r & Hin & <-). exists r. split; auto.
    apply list_elem_of_fmap. now exists (k, r).
Qed.

(** X9: [get_protocol_networks] lists each network the protocol is
    recorded on once, and nothing else. *)
Theorem get_protocol_networks_exact (p : string) (c : cache) :
  NoDup (get_protocol_networks p c) /\
  forall n, n ∈ get_protocol_networks p c <->
            exists k r, (k, r) ∈ c /\ protocol r = p /\ network r = n.
Proof.
  unfold get_protocol_networks. split; [apply distinct_nodup|].
  intros n. rewrite distinct_elem, list_elem_of_fmap. unfold PyDict.values. split.
  - intros (r & -> & Hr). apply list_elem_of_filter in Hr as [Hp Hr].
    apply list_elem_of_fmap in Hr as ([k r'] & -> & Hin).
    apply String.eqb_eq in Hp. eauto.
  - intros (k & r & Hin & <- & <-). exists r. split; auto.
    apply list_elem_of_filter. split; [apply String.eqb_refl|].
    apply list_elem_of_fmap. now exists (k, r).
Qed.

End RegistryMore.

(** ** Further properties of the engine, the client and the helpers *)

Module EngineMore.

Import Json Engine Samples.

Section Cache.

Variable hash : string -> Z.
Variable py_str : option json -> string.
Variable clock : nat -> Z.
Variable transport : nat -> string -> string -> option json -> option Data.

Local Notation "'run'" := (execute_query hash py_str clock transport).
Local Notation "'key_of'" := (cache_key hash py_str).

(** X10: [test_connection] goes round the cache: it makes exactly one
    request, reads no clock, stores nothing, and succeeds exactly when
    the answer has a [_meta] entry. *)
Theorem test_connection_bypasses_cache sid (s : State) :
  let '(ok, s') := test_connection hash py_str clock transport sid s in
  cache s' = cache s /\ ticks s' = ticks s /\
  calls s' = (calls s ++ [(sid, test_query, None)])%list /\
  ok = match transport (length (calls s)) sid test_query None with
       | Some d => PyDict.mem "_meta" d
       | None => false
       end.
Proof.
  unfold test_connection, execute_query. simpl.
  destruct (transport _ sid test_query None) as [d|]; simpl.
  - rewrite andb_false_r. simpl. auto.
  - auto.
Qed.

Lemma cleanup_cache_lookup (s : State) key (d : Data) (t : Z) :
  cache (cleanup_cache clock s) !! key = Some (d, t) <->
  cache s !! key = Some (d, t) /\ clock (ticks s) - t <= ttl_delta s.
Proof. unfold cleanup_cache. simpl. apply map_lookup_filter_Some. Qed.

(** X11: A call that stores a result sweeps the cache: afterwards no entry
    is older than the time to live at the clock reading of the sweep
    (the last reading the call made), whichever key it sits at. *)
Theorem execute_query_sweeps sid q vars (s : State) (d : Data) :
  (forall d0 t, cache s !! key_of sid q vars = Some (d0, t) ->
     ttl_delta s <= clock (ticks s) - t) ->
  transport (length (calls s)) sid q vars = Some d -> truthy_data d = true ->
  let s1 := snd (run sid q vars true s) in
  forall key' d' t',
    cache s1 !! key' = Some (d', t') ->
    clock (ticks s1 - 1) - t' <= ttl_delta s.
Proof.
  intros Hold Ht Hd. unfold execute_query. simpl. unfold lookup_cache.
  destruct (cache s !! key_of sid q vars) as [[d0 t]|] eqn:L; simpl.
  - specialize (Hold d0 t eq_refl).
    destruct (Z.ltb_spec (clock (ticks s) - t) (ttl_delta s)) as [Hlt|_]; [lia|].
    simpl. rewrite Ht, Hd. simpl. intros key' d' t' Hl.
    apply map_lookup_filter_Some in Hl as [_ Hage]. simpl in Hage.
    replace (S (S (S (ticks s))) - 1)%nat with (S (S (ticks s))) by lia. exact Hage.
  - rewrite Ht, Hd. simpl. intros key' d' t' Hl.
    apply map_lookup_filter_Some in Hl as [_ Hage]. simpl in Hage.
    replace (S (S (ticks s)) - 1)%nat with (S (ticks s)) by lia. exact Hage.
Qed.

(** An entry that a read would still serve is never swept: the read
    asks for an age below the time to live, the sweep deletes above. *)
Theorem cleanup_keeps_fresh (s : State) key (d : Data) (t : Z) :
  cache s !! key = Some (d, t) -> clock (ticks s) - t < ttl_delta s ->
  cache (cleanup_cache clock s) !! key = Some (d, t).
Proof.
  intros L H. apply cleanup_cache_lookup. split; auto. lia.
Qed.

(** X12: A result that is [None] or empty is never stored: the cache is
    left as it was. *)
Theorem execute_query_empty_not_cached sid q vars use (s : State) :
  (forall d, transport (length (calls s)) sid q vars = Some d -> truthy_data d = false) ->
  cache (snd (run sid q vars use s)) = cache s.
Proof.
  intros Hfalsy. unfold execute_query.
  destruct (use && Config.cache_enabled)%bool.
  - unfold lookup_cache. destruct (cache s !! key_of sid q vars) as [[d0 t0]|]; simpl.
    + destruct (Z.ltb _ _); simpl; auto.
      destruct (transport _ sid q vars) as [d|] eqn:T; simpl; auto.
      now rewrite (Hfalsy d eq_refl).
    + destruct (transport _ sid q vars) as [d|] eqn:T; simpl; auto.
      now rewrite (Hfalsy d eq_refl).
  - destruct (transport _ sid q vars) as [d|]; simpl; auto.
    now rewrite andb_false_r.
Qed.

End Cache.

Lemma cleanup_keeps_fresh_witness :
  cache (cleanup_cache seconds (mkState {["k" := (one_pool, 0)]} 300 5 [])) !! "k"
  = Some (one_pool, 0).
Proof.
  apply cleanup_keeps_fresh.
  - reflexivity.
  - vm_compute. reflexivity.
Defined.

Lemma execute_query_sweeps_witness :
  seconds (ticks (snd (execute_query toy_hash toy_str seconds answering "sg"
                         "{ pools { id } }" None true stale_state)) - 1) - seconds 0
  <= ttl_delta stale_state.
Proof.
  apply (execute_query_sweeps toy_hash toy_str seconds answering "sg" "{ pools { id } }" None
           stale_state one_pool)
    with (key' := cache_key toy_hash toy_str "sg" "{ pools { id } }" None) (d' := one_pool).
  - intros d0 t Hl. vm_compute in Hl. discriminate Hl.
  - reflexivity.
  - reflexivity.
  - vm_compute. reflexivity.
Defined.

Lemma execute_query_empty_not_cached_witness :
  cache (snd (execute_query toy_hash toy_str seconds failing "sg" "{ pools { id } }" None true
                init)) = cache init.
Proof. apply execute_query_empty_not_cached. intros d H. discriminate H. Defined.

Section Wired.

Variable hash : string -> Z.
Variable py_str : option json -> string.
Variable clock : nat -> Z.
Variable transport : nat -> string -> string -> option json -> option Data.
Variable json_loads : string -> string + json.
Variable llm : string -> Builder.ProtocolContext -> string + string.
Variable formatter : Data -> json -> string -> string + string.

Local Notation "'nlq'" :=
  (run_natural_language_query hash py_str clock transport json_loads llm formatter).

Lemma build_query_truthy q pc :
  Py.truthy (Builder.plan_query (Builder.build_query json_loads llm q pc)) = true.
Proof.
  assert (H : Builder.plan_query (Builder.build_query json_loads llm q pc) <> "").
  { unfold Builder.build_query.
    destruct (Builder.try_model json_loads llm q pc) as [e|p] eqn:T.
    - apply BuilderFacts.fallback_query_nonempty.
    - unfold Builder.try_model in T.
      destruct (llm q pc) as [e|r]; simpl in T; [discriminate|].
      destruct (Builder.parse_llm_response json_loads r) as [e|res]; simpl in T; [discriminate|].
      now apply BuilderFacts.validated_query_nonempty in T. }
  destruct (Builder.plan_query _); [congruence|reflexivity].
Qed.

(** X13: As the engine is wired, the builder always hands over a document,
    so the result "the builder failed to build a query" is never
    returned. *)
Theorem wired_never_reports_builder_failure context (s : State) :
  fst (nlq context s) <> failure "GraphQL Builder 构建查询失败" "".
Proof.
  unfold run_natural_language_query, execute_natural_language_query, nl_try.
  destruct (ctx_get "protocol" context) as [e|protocol]; simpl; [discriminate|].
  destruct (ctx_get "network" context) as [e|network]; simpl; [discriminate|].
  destruct (ctx_get "user_query" context) as [e|user_query]; simpl; [discriminate|].
  rewrite build_query_truthy. simpl.
  destruct (ctx_get "subgraph_id" context) as [e|sid]; simpl; [discriminate|].
  destruct (execute_query _ _ _ _ _ _ _ _ _) as [[result|] s']; simpl; [|discriminate].
  destruct (truthy_data result); simpl; [|discriminate].
  destruct (formatter _ _ _); simpl; discriminate.
Qed.

(** X14: When the gateway gives no data and nothing is cached, the result
    is the fixed execution failure with an empty formatted text: the
    message of the transport is not what is reported. *)
Theorem wired_no_data_is_execution_failure context (s : State) :
  (forall k, k ∈ ["protocol"; "network"; "user_query"; "subgraph_id"] ->
             PyDict.get k context <> None) ->
  cache s = ∅ ->
  (forall k sid q vars, transport k sid q vars = None) ->
  fst (nlq context s) = failure "GraphQL 查询执行失败" "".
Proof.
  intros Hctx Hempty Hnone.
  assert (H1 := Hctx "protocol" ltac:(set_solver)).
  assert (H2 := Hctx "network" ltac:(set_solver)).
  assert (H3 := Hctx "user_query" ltac:(set_solver)).
  assert (H4 := Hctx "subgraph_id" ltac:(set_solver)).
  unfold run_natural_language_query, execute_natural_language_query, nl_try, ctx_get.
  destruct (PyDict.get "protocol" context) as [protocol|]; [|congruence].
  destruct (PyDict.get "network" context) as [network|]; [|congruence].
  destruct (PyDict.get "user_query" context) as [user_query|]; [|congruence].
  rewrite build_query_truthy. simpl.
  destruct (PyDict.get "subgraph_id" context) as [sid|]; [|congruence].
  unfold execute_query. simpl. unfold lookup_cache. rewrite Hempty, lookup_empty.
  rewrite Hnone. reflexivity.
Qed.

End Wired.

Lemma wired_no_data_is_execution_failure_witness :
  fst (run_natural_language_query toy_hash toy_str seconds failing
         (fun _ => inl "Expecting value") (fun _ _ => inl "model unavailable")
         (fun _ _ _ => inr "") engine_context init)
  = failure "GraphQL 查询执行失败" "".
Proof.
  apply wired_no_data_is_execution_failure.
  - intros k Hk. repeat (apply elem_of_cons in Hk as [->|Hk]; [discriminate|]).
    inversion Hk.
  - reflexivity.
  - reflexivity.
Defined.

End EngineMore.

Module ClientMore.

Import Client.

Section Generic.

Context `{U : Py.Unicode}.

(** X16: Without a key, or for an identifier that is not well formed
    (empty, shorter than 30 or longer than 60 characters, or not
    alphanumeric), [GraphClient.execute_query] returns [None] whatever
    the transport would do, and makes no client. *)
Theorem client_refuses_without_running api_key make run sid q vars (cs : gset string) :
  Py.truthy api_key = false \/ Config.is_valid_subgraph_id sid = false ->
  execute_query api_key make run sid q vars cs = (None, cs).
Proof.
  unfold execute_query, get_or_create_client.
  intros [->| ->]; simpl; auto. now destruct (Py.truthy api_key).
Qed.

(** X17: A client is made once: after a call that returned one, every later
    call for the same dataset returns it without making another, and
    the set of clients no longer changes. *)
Theorem client_is_reused api_key make make' sid (cs cs' : gset string) :
  get_or_create_client api_key make sid cs = (true, cs') ->
  sid ∈ cs' /\ get_or_create_client api_key make' sid cs' = (true, cs').
Proof.
  unfold get_or_create_client.
  destruct (Py.truthy api_key); simpl; [|discriminate].
  destruct (Config.is_valid_subgraph_id sid); simpl; [|discriminate].
  destruct (bool_decide (sid ∈ cs)) eqn:B.
  - intros [= <-]. apply bool_decide_eq_true in B. split; auto.
    now rewrite bool_decide_eq_true_2.
  - destruct (make sid); [|discriminate]. intros [= <-].
    assert (sid ∈ {[sid]} ∪ cs) by set_solver. split; auto.
    now rewrite bool_decide_eq_true_2.
Qed.

End Generic.

#[local] Existing Instance Plain.text.

Lemma client_refuses_without_running_witness :
  execute_query "key" (fun _ => true) (fun _ _ _ => inr []) "too-short" "{ _meta }" None ∅
  = (None, ∅).
Proof. apply client_refuses_without_running. right. reflexivity. Defined.

Lemma client_is_reused_witness :
  get_or_create_client "key" (fun _ => false)
    "5zvR82QoaXYFyDEKLZ9t6v9adgnptxYpKpSbxtgVENFV"
    {["5zvR82QoaXYFyDEKLZ9t6v9adgnptxYpKpSbxtgVENFV"]}
  = (true, {["5zvR82QoaXYFyDEKLZ9t6v9adgnptxYpKpSbxtgVENFV"]}).
Proof.
  apply (client_is_reused "key" (fun _ => true) (fun _ => false)
           "5zvR82QoaXYFyDEKLZ9t6v9adgnptxYpKpSbxtgVENFV"
           {["5zvR82QoaXYFyDEKLZ9t6v9adgnptxYpKpSbxtgVENFV"]}).
  reflexivity.
Defined.

End ClientMore.

(** ** Further properties of the analyzer *)

Module AnalyzerMore.

Import Analyzer.

Lemma scan_protocols_nodup aliases ql found :
  NoDup (map protocol found) -> NoDup (map protocol (scan_protocols aliases ql found)).
Proof.
  revert found. induction aliases as [|[alias std] rest IH]; intros found H; simpl; auto.
  apply IH. destruct (Py.contains alias ql); auto.
  destruct (existsb _ found) eqn:E; auto.
  rewrite map_app. simpl. apply NoDup_app. split; [exact H|]. split.
  - intros x Hx Hin. apply list_elem_of_singleton in Hin. subst x.
    apply list_elem_of_fmap in Hx as (p & Hp & Hin).
    assert (existsb (fun p => String.eqb (protocol p) std) found = true) as E'.
    { apply existsb_exists. exists p. split.
      - now apply list_elem_of_In.
      - rewrite <- Hp. apply String.eqb_refl. }
    congruence.
  - apply NoDup_singleton.
Qed.

Lemma scan_protocols_keeps aliases ql found x :
  x ∈ map protocol found -> x ∈ map protocol (scan_protocols aliases ql found).
Proof.
  revert found. induction aliases as [|[alias std] rest IH]; intros found H; simpl; auto.
  apply IH. destruct (Py.contains alias ql); auto.
  destruct (existsb _ found); auto.
  rewrite map_app. apply elem_of_app. now left.
Qed.

Lemma scan_protocols_finds aliases ql found alias std :
  (alias, std) ∈ aliases -> Py.contains alias ql = true ->
  std ∈ map protocol (scan_protocols aliases ql found).
Proof.
  revert found. induction aliases as [|[a0 s0] rest IH]; intros found Hin Hc;
    [inversion Hin|].
  simpl. apply elem_of_cons in Hin as [Heq|Hin]; [|now apply IH].
  injection Heq as <- <-. rewrite Hc. apply scan_protocols_keeps.
  destruct (existsb _ found) eqn:E.
  - apply existsb_exists in E as (p & Hp & Heq). apply String.eqb_eq in Heq.
    apply list_elem_of_fmap. exists p. split; auto. now apply list_elem_of_In.
  - rewrite map_app. apply elem_of_app. right. simpl. apply list_elem_of_here.
Qed.

Lemma map_protocol_set_network n l : map protocol (map (set_network n) l) = map protocol l.
Proof. induction l; simpl; congruence. Qed.

Lemma map_protocol_set_version v l : map protocol (map (set_version v) l) = map protocol l.
Proof. induction l; simpl; congruence. Qed.

Section Generic.

Context `{U : Py.Unicode}.

Lemma map_protocol_named q :
  map protocol (named q) = map protocol (scan_protocols protocol_aliases (Py.str_lower q) []).
Proof.
  unfold named. destruct (search_version _).
  - now rewrite map_protocol_set_version, map_protocol_set_network.
  - now rewrite map_protocol_set_network.
Qed.

Lemma rule_based_cases q :
  (named q <> [] /\ protocols (rule_based_analyze q) = named q) \/
  (named q = [] /\
   exists a b, In (a, b) [("uniswap", "sushiswap"); ("aave", "compound")] /\
     protocols (rule_based_analyze q) =
       [mkInfo a (scan_network network_aliases (Py.str_lower q)) None (5 # 10);
        mkInfo b (scan_network network_aliases (Py.str_lower q)) None (5 # 10)]) \/
  (named q = [] /\ protocols (rule_based_analyze q) = []).
Proof.
  unfold rule_based_analyze. fold (named q). cbn [protocols].
  destruct (named q) as [|p0 rest] eqn:N.
  - right. destruct (Builder.any_in dex_keywords _).
    + left. split; auto. exists "uniswap", "sushiswap". split; [now left|reflexivity].
    + destruct (Builder.any_in lending_keywords _).
      * left. split; auto. exists "aave", "compound". split; [right; now left|reflexivity].
      * right. auto.
  - left. split; [discriminate|reflexivity].
Qed.

(** X18: The mentions of the rules are deduplicated: no protocol twice. *)
Theorem rule_based_mentions_distinct (user_query : string) :
  NoDup (map protocol (protocols (rule_based_analyze user_query))).
Proof.
  destruct (rule_based_cases user_query) as [[_ ->]|[(_ & a & b & Hab & ->)|[_ ->]]].
  - rewrite map_protocol_named. apply scan_protocols_nodup. apply NoDup_nil_2.
  - simpl. destruct Hab as [[= <- <-]|[[= <- <-]|[]]];
      (apply NoDup_cons; split; [|apply NoDup_singleton]);
      intros H; apply list_elem_of_singleton in H; discriminate.
  - apply NoDup_nil_2.
Qed.

(** X19: Aliases are matched as substrings: whenever an alias of the table
    occurs anywhere in the lowered query, inside a longer word too,
    its protocol is among the mentions. *)
Theorem rule_based_alias_is_mentioned (user_query alias std : string) :
  (alias, std) ∈ protocol_aliases ->
  Py.contains alias (Py.str_lower user_query) = true ->
  std ∈ map protocol (protocols (rule_based_analyze user_query)).
Proof.
  intros Hin Hc.
  pose proof (scan_protocols_finds _ _ [] _ _ Hin Hc) as Hfound.
  rewrite <- map_protocol_named in Hfound.
  destruct (rule_based_cases user_query) as [[_ ->]|[(N & _)|[N _]]]; auto;
    rewrite N in Hfound; inversion Hfound.
Qed.


Lemma named_network N ov found :
  Forall (fun p => network p = N)
    (match ov with
     | Some digits => map (set_version (Some ("v" +:+ digits))) (map (set_network N) found)
     | None => map (set_network N) found
     end).
Proof.
  destruct ov.
  - apply Forall_forall. intros p Hp.
    apply list_elem_of_fmap in Hp as (p1 & -> & Hp1).
    apply list_elem_of_fmap in Hp1 as (p0 & -> & _). reflexivity.
  - apply Forall_forall. intros p Hp.
    apply list_elem_of_fmap in Hp as (p0 & -> & _). reflexivity.
Qed.

Lemma seeds_network N a b c :
  Forall (fun p => network p = N) [mkInfo a N None c; mkInfo b N None c].
Proof. repeat constructor. Qed.

(** X20: Every mention carries the one network detected in the query. *)
Theorem rule_based_single_network (user_query : string) :
  Forall (fun p => network p = scan_network network_aliases (Py.str_lower user_query))
         (protocols (rule_based_analyze user_query)).
Proof.
  destruct (rule_based_cases user_query) as [[_ H]|[(_ & a & b & _ & H)|[_ H]]]; rewrite H.
  - exact (named_network _ _ _).
  - exact (seeds_network _ _ _ _).
  - apply Forall_nil_2.
Qed.

Lemma scan_protocols_confidence aliases ql found :
  Forall (fun p => confidence p = (8 # 10)%Q /\ version p = None) found ->
  Forall (fun p => confidence p = (8 # 10)%Q /\ version p = None)
         (scan_protocols aliases ql found).
Proof.
  revert found. induction aliases as [|[alias std] rest IH]; intros found H; simpl; auto.
  apply IH. destruct (Py.contains alias ql); auto.
  destruct (existsb _ found); auto.
  apply Forall_app. split; auto.
Qed.

Lemma named_version N ov found :
  Forall (fun p => confidence p = (8 # 10)%Q /\ version p = None) found ->
  Forall (fun p => confidence p = (8 # 10)%Q /\ version p = (String "v") <$> ov)
    (match ov with
     | Some digits => map (set_version (Some ("v" +:+ digits))) (map (set_network N) found)
     | None => map (set_network N) found
     end).
Proof.
  intros Hc. rewrite Forall_forall in Hc. destruct ov; apply Forall_forall; intros p Hp.
  - apply list_elem_of_fmap in Hp as (p1 & -> & Hp1).
    apply list_elem_of_fmap in Hp1 as (p0 & -> & Hp0).
    destruct (Hc p0 Hp0) as [Hconf _]. simpl. auto.
  - apply list_elem_of_fmap in Hp as (p0 & -> & Hp0).
    destruct (Hc p0 Hp0) as [Hconf Hv]. simpl. auto.
Qed.

Lemma seeds_version (N a b : string) (A : ProtocolInfo -> Prop) (T : Prop) :
  T ->
  Forall (fun p => A p \/ (confidence p = (5 # 10)%Q /\ version p = None /\ T))
    [mkInfo a N None (5 # 10); mkInfo b N None (5 # 10)].
Proof.
  intros HT. apply Forall_cons. split; [right; simpl; auto|].
  apply Forall_cons. split; [right; simpl; auto|]. apply Forall_nil_2.
Qed.

(** X21: A version token of the query is given to the protocols found by
    name, at confidence 0.8; the defaults seeded from a keyword have
    confidence 0.5 and never a version. *)
Theorem rule_based_version_and_confidence (user_query : string) :
  Forall (fun p =>
            (confidence p = (8 # 10)%Q /\
             version p = (String "v") <$> search_version (Py.str_lower user_query)) \/
            (confidence p = (5 # 10)%Q /\ version p = None /\
             no_protocol_token user_query = true))
         (protocols (rule_based_analyze user_query)).
Proof.
  destruct (rule_based_cases user_query) as [[_ H]|[(N & a & b & _ & H)|[_ H]]]; rewrite H.
  - eapply Forall_impl; [|intros p Hp; left; exact Hp].
    apply (named_version _ _ _
             (scan_protocols_confidence protocol_aliases (Py.str_lower user_query) []
                (Forall_nil_2 _))).
  - apply (seeds_version _ _ _ _).
    unfold no_protocol_token. apply negb_true_iff.
    destruct (existsb _ protocol_aliases) eqn:E; auto.
    apply existsb_exists in E as ([alias std] & Hin & Hc). cbn [fst] in Hc.
    apply list_elem_of_In in Hin.
    pose proof (scan_protocols_finds _ _ [] _ _ Hin Hc) as Hfound.
    rewrite <- map_protocol_named, N in Hfound. inversion Hfound.
  - apply Forall_nil_2.
Qed.

End Generic.

#[local] Existing Instance Plain.text.

Lemma rule_based_alias_is_mentioned_witness :
  "compound" ∈ map protocol
    (protocols (rule_based_analyze "Compare Uniswap and Sushiswap TVL on Polygon")).
Proof.
  apply (rule_based_alias_is_mentioned _ "comp" "compound").
  - vm_compute. repeat (first [apply list_elem_of_here | apply list_elem_of_further]).
  - reflexivity.
Defined.

End AnalyzerMore.

(** ** Further properties of the builder *)

Module BuilderMore.

Import Json Builder Samples.

Lemma spaced_weaken s : spaced_go true s = true -> spaced_go false s = true.
Proof.
  destruct s as [|c r]; simpl; auto.
  destruct (Py.is_space c); auto. rewrite andb_false_r. discriminate.
Qed.

Lemma collapse_spaced b s : spaced_go b (collapse_go b s) = true.
Proof.
  revert b. induction s as [|c r IH]; intros b; simpl; auto.
  destruct (Py.is_space c) eqn:Hc.
  - destruct b; [apply IH|]. simpl. apply IH.
  - simpl. rewrite Hc. apply IH.
Qed.

Lemma lstrip_spaced s : spaced_go false s = true -> spaced_go true (Py.lstrip s) = true.
Proof.
  destruct s as [|c r]; simpl; auto.
  destruct (Py.is_space c) eqn:Hc.
  - intros H. apply andb_true_iff in H as [_ Hr].
    destruct r as [|c' r']; simpl in *; auto.
    destruct (Py.is_space c') eqn:Hc'.
    + rewrite andb_false_r in Hr. discriminate.
    + simpl. now rewrite Hc'.
  - simpl. now rewrite Hc.
Qed.

Lemma rstrip_tidy b s :
  spaced_go b s = true -> Py.rstrip s = "" \/ tidy_go b (Py.rstrip s) = true.
Proof.
  revert b. induction s as [|c r IH]; intros b H; [now left|].
  rewrite BuilderFacts.rstrip_cons. simpl in H.
  destruct (Py.is_space c) eqn:Hc.
  - apply andb_true_iff in H as [Hcb Hr].
    destruct (IH true Hr) as [E|T].
    + rewrite E. now left.
    + right. destruct (Py.rstrip r) as [|c' r'] eqn:R; [simpl in T; discriminate|].
      cbn [tidy_go]. rewrite Hc, Hcb. exact T.
  - destruct (IH false H) as [E|T].
    + rewrite E. right. simpl. now rewrite Hc.
    + right. destruct (Py.rstrip r) as [|c' r'] eqn:R.
      * simpl. now rewrite Hc.
      * cbn [tidy_go]. rewrite Hc. exact T.
Qed.

Lemma normalize_tidy s : tidy (normalize s) = true.
Proof.
  unfold normalize, Py.strip.
  pose proof (lstrip_spaced _ (collapse_spaced false s)) as H.
  destruct (rstrip_tidy true _ H) as [E|T].
  - now rewrite E.
  - unfold tidy. now destruct (Py.rstrip _).
Qed.

(** X22: The document of a plan built from model output is clean: words
    separated by single blanks, no other white space, none at either
    end; and it is not empty. *)
Theorem validated_query_is_tidy (result : json) (p : Plan) :
  validate_and_fix_query result = inr p ->
  tidy (plan_query p) = true /\ plan_query p <> "".
Proof.
  intros V. split; [|now apply BuilderFacts.validated_query_nonempty in V].
  apply BuilderFacts.validate_inr in V as (d & q & vars & _ & _ & _ & Hq & _).
  simpl in Hq. rewrite Hq. apply normalize_tidy.
Qed.

Lemma validated_query_is_tidy_witness :
  tidy "query Q { pools { id } }" = true.
Proof.
  apply (validated_query_is_tidy
           (JObj [("query", JStr "
   query Q {
       pools { id }
   }
")])
           (mkPlan "query Q { pools { id } }" (JObj []) (JStr ""))).
  reflexivity.
Defined.

(** X23: A response that holds a closing brace after its first opening
    brace is always handed to [json.loads], whole or from the first
    opening to the last closing brace: the extraction of a fenced or
    raw GraphQL document is never reached for it. *)
Theorem braces_go_to_json_loads json_loads (response m : string) :
  regex_braces response = Some m ->
  parse_llm_response json_loads response = json_loads response \/
  parse_llm_response json_loads response = json_loads m.
Proof.
  intros H. unfold parse_llm_response.
  destruct (String.prefix "{" (Py.strip response)); [now left|].
  rewrite H. now right.
Qed.

Lemma braces_go_to_json_loads_witness :
  parse_llm_response (fun _ => inl "Expecting value") ("```graphql" +:+ nl +:+ "query { pools { id } }" +:+ nl +:+ "```")
  = inl "Expecting value".
Proof.
  destruct (braces_go_to_json_loads (fun _ => inl "Expecting value")
              ("```graphql" +:+ nl +:+ "query { pools { id } }" +:+ nl +:+ "```")
              "{ pools { id } }" eq_refl) as [H|H]; exact H.
Defined.

(** X24: [_validate_and_fix_query] accepts a result exactly when it is an
    object whose query is a non-empty string and, if the document
    (wrapped when it has no header) mentions [$first], whose variables
    are an object, or a list or a string that already holds [first]. *)
Theorem validate_accepts_iff (result : json) :
  (exists p, validate_and_fix_query result = inr p) <->
  exists d q,
    result = JObj d /\ default (JStr "") (PyDict.get "query" d) = JStr q /\
    Py.truthy q = true /\
    (Py.contains "$first" (if header_search q then q else "query GeneratedQuery " +:+ q) = true ->
     match default (JObj []) (PyDict.get "variables" d) with
     | JObj _ => True
     | JList l => existsb (is_str "first") l = true
     | JStr s => Py.contains "first" s = true
     | _ => False
     end).
Proof.
  split.
  - intros [p V]. apply BuilderFacts.validate_inr in V
      as (d & q & vars & -> & Hq & Tq & _ & _ & _ & Hfirst).
    exists d, q. repeat split; auto. simpl in Hfirst. intros C. rewrite C in Hfirst.
    destruct Hfirst as (present & P & S).
    destruct (default (JObj []) (PyDict.get "variables" d)); simpl in *;
      try discriminate; auto; inversion P; subst present; clear P.
    + destruct (Py.contains "first" s); [reflexivity|discriminate].
    + destruct (existsb (is_str "first") l); [reflexivity|discriminate].
  - intros (d & q & -> & Hq & Tq & Hfirst).
    unfold validate_and_fix_query. simpl. rewrite Hq, Tq. simpl.
    destruct (Py.contains "$first" _) eqn:C; simpl; [|eauto].
    specialize (Hfirst eq_refl).
    destruct (default (JObj []) (PyDict.get "variables" d)); simpl in *;
      try contradiction.
    + rewrite Hfirst. simpl. eauto.
    + rewrite Hfirst. simpl. eauto.
    + destruct (PyDict.mem "first" d0); simpl; eauto.
Qed.

End BuilderMore.

(** ** Further properties of discovery *)

Module DiscoveryMore.

Import Json Discovery Samples.

(** X25: The constructor raises exactly when a key is passed while
    [GRAPH_API_KEY] is not set: the endpoint is built from the
    configured key, not from the one passed. *)
Theorem init_raises_iff (api_key_arg : option string) (GRAPH_API_KEY : string) :
  (exists e, init api_key_arg GRAPH_API_KEY = inl e) <->
  Py.truthy_opt api_key_arg = true /\ Py.truthy GRAPH_API_KEY = false.
Proof.
  unfold init, Config.get_graph_network_endpoint.
  destruct api_key_arg as [k|]; simpl.
  - destruct (Py.truthy k) eqn:K; simpl.
    + rewrite K. simpl. destruct (Py.truthy GRAPH_API_KEY); simpl.
      * split; [intros [e H]; discriminate|intros [_ H]; discriminate].
      * split; eauto.
    + destruct (Py.truthy GRAPH_API_KEY); simpl;
        (split; [intros [e H]; discriminate|intros [H _]; discriminate]).
  - destruct (Py.truthy GRAPH_API_KEY); simpl;
      (split; [intros [e H]; discriminate|intros [H _]; discriminate]).
Qed.

Section Network.

Context `{U : Py.Unicode}.

Variable http_post : nat -> string -> string -> json -> Response.
Variable float_ok : json -> bool.

Local Notation "'search'" := (execute_search_query http_post float_ok).

Lemma search_log ep term log :
  snd (search ep term log) = (log ++ [(ep, q_search, JObj [("text", JStr term)])])%list.
Proof. reflexivity. Qed.

Lemma search_terms_loop_log ep protocol network terms log :
  exists extra,
    snd (search_terms_loop http_post float_ok ep protocol network terms log)
    = (log ++ extra)%list /\
    (length extra <= length terms)%nat /\
    Forall (fun p => fst (fst p) = ep) extra.
Proof.
  revert log. induction terms as [|term rest IH]; intros log; cbn [search_terms_loop].
  - exists []. rewrite app_nil_r. repeat split; auto.
  - pose proof (search_log ep term log) as Hs.
    destruct (search ep term log) as [results log']. simpl in Hs. subst log'.
    set (entry := (ep, q_search, JObj [("text", JStr term)])).
    destruct (first_by_name protocol network results) as [e|[r|]]; simpl.
    + exists [entry]. split; [reflexivity|]. split; [simpl; lia|]. now repeat constructor.
    + exists [entry]. split; [reflexivity|]. split; [simpl; lia|]. now repeat constructor.
    + destruct (IH (log ++ [entry])%list) as (extra & Hlog & Hlen & Hall).
      exists (entry :: extra). rewrite Hlog, <- app_assoc.
      split; [reflexivity|]. split; [simpl; lia|]. now constructor.
Qed.

(** X26: [find] posts at most four requests, two when no version is asked
    for, all of them to the endpoint of the meta-index, and never
    touches what was posted before. *)
Theorem find_posts_bounded (d : SubgraphDiscovery) protocol network version (log : list Post) :
  exists extra,
    snd (find http_post float_ok d protocol network version log) = (log ++ extra)%list /\
    (length extra <= if Py.truthy_opt version then 4 else 2)%nat /\
    Forall (fun p => endpoint d = Some (fst (fst p))) extra.
Proof.
  unfold find. destruct (endpoint d) as [ep|] eqn:E.
  - unfold search_by_protocol_name.
    assert (Hterms : forall terms : list string,
               terms = (if Py.truthy_opt version
                        then [protocol +:+ " " +:+ default "" version;
                              protocol +:+ default "" version]
                        else []) ->
               (S (length terms) <= if Py.truthy_opt version then 3 else 1)%nat).
    { intros terms ->. destruct (Py.truthy_opt version); simpl; lia. }
    specialize (Hterms _ eq_refl).
    destruct (search_terms_loop_log ep protocol network
                (protocol :: (if Py.truthy_opt version
                              then [protocol +:+ " " +:+ default "" version;
                                    protocol +:+ default "" version]
                              else [])) log)
      as (extra & Hlog & Hlen & Hall).
    cbn [length] in Hlen.
    assert (Hbound : (length extra + 1 <= if Py.truthy_opt version then 4 else 2)%nat).
    { destruct (Py.truthy_opt version); lia. }
    assert (Hep : Forall (fun p : Post => Some ep = Some (fst (fst p))) extra).
    { eapply Forall_impl; [exact Hall|]. intros p ->. reflexivity. }
    destruct (search_terms_loop _ _ _ _ _ _ _) as [[e|[r|]] log'];
      simpl in Hlog; subst log'; simpl.
    + exists extra. split; [reflexivity|]. split; [lia|exact Hep].
    + exists extra. split; [reflexivity|]. split; [lia|exact Hep].
    + unfold search_in_high_signal_subgraphs, post. simpl.
      exists (extra ++ [(ep, q_high_signal, JObj [("minSignal", JStr min_signal)])])%list.
      rewrite app_assoc. split; [reflexivity|]. split.
      * rewrite length_app. simpl. lia.
      * apply Forall_app. split; [exact Hep|]. now repeat constructor.
  - exists []. rewrite app_nil_r. split; [reflexivity|]. split; [|constructor].
    simpl. destruct (Py.truthy_opt version); lia.
Qed.

Lemma first_by_name_matches protocol network results r :
  first_by_name protocol network results = inr (Some r) ->
  r ∈ results /\ matches protocol network r.
Proof.
  induction results as [|r0 rest IH]; simpl; [discriminate|].
  destruct (str_lower (Discovery.network r0)) as [e|n] eqn:N; simpl; [discriminate|].
  destruct (String.eqb n (Py.str_lower network)) eqn:En.
  - apply String.eqb_eq in En. subst n.
    destruct (str_lower (name r0)) as [e|nm] eqn:Nm; simpl; [discriminate|].
    destruct (Py.contains (Py.str_lower protocol) nm) eqn:C.
    + intros [= <-]. split; [left|]. split; auto. left. eauto.
    + intros H. destruct (IH H). split; auto. now right.
  - intros H. destruct (IH H). split; auto. now right.
Qed.

Lemma first_by_text_matches protocol network results r :
  first_by_text protocol network results = inr (Some r) ->
  r ∈ results /\ matches protocol network r.
Proof.
  induction results as [|r0 rest IH]; simpl; [discriminate|].
  destruct (str_lower (Discovery.network r0)) as [e|n] eqn:N; simpl; [discriminate|].
  destruct (String.eqb n (Py.str_lower network)) eqn:En.
  - apply String.eqb_eq in En. subst n.
    destruct (str_lower (name r0)) as [e|nm] eqn:Nm; simpl; [discriminate|].
    destruct (Py.contains (Py.str_lower protocol) nm) eqn:C.
    + intros [= <-]. split; [left|]. split; auto. left. eauto.
    + destruct (str_lower (description r0)) as [e|ds] eqn:Ds; simpl; [discriminate|].
      destruct (Py.contains (Py.str_lower protocol) ds) eqn:C'.
      * intros [= <-]. split; [left|]. split; auto. right. eauto.
      * intros H. destruct (IH H). split; auto. now right.
  - intros H. destruct (IH H). split; auto. now right.
Qed.

Lemma search_is_candidates ep term log :
  fst (search ep term log)
  = candidates float_ok (http_post (length log) ep q_search (JObj [("text", JStr term)])).
Proof. reflexivity. Qed.

Lemma search_terms_loop_matches ep protocol network terms log r :
  fst (search_terms_loop http_post float_ok ep protocol network terms log) = inr (Some r) ->
  exists posted term,
    snd (search_terms_loop http_post float_ok ep protocol network terms log)
    = (log ++ posted ++ [(ep, q_search, JObj [("text", JStr term)])])%list /\
    term ∈ terms /\
    r ∈ candidates float_ok
          (http_post (length (log ++ posted)) ep q_search (JObj [("text", JStr term)])) /\
    matches protocol network r.
Proof.
  revert log. induction terms as [|term rest IH]; intros log; cbn [search_terms_loop];
    [discriminate|].
  pose proof (search_log ep term log) as Hs.
  pose proof (search_is_candidates ep term log) as Hc.
  destruct (search ep term log) as [results log']. simpl in Hs, Hc. subst log' results.
  destruct (first_by_name protocol network _) as [e|[r0|]] eqn:F; simpl.
  - discriminate.
  - intros [= <-]. apply first_by_name_matches in F as [Hin Hm].
    exists [], term. rewrite app_nil_r. simpl. split; [reflexivity|].
    split; [apply list_elem_of_here|]. split; assumption.
  - intros Hr. destruct (IH _ Hr) as (posted & term' & Hlog & Hterm & Hin & Hm).
    exists ((ep, q_search, JObj [("text", JStr term)]) :: posted), term'.
    rewrite <- app_assoc in Hlog, Hin. simpl in Hlog, Hin.
    split; [exact Hlog|]. split; [now apply list_elem_of_further|]. split; assumption.
Qed.

(** X27: The identifier [find] returns is that of a candidate held by the
    response to the last request it posted, and that candidate is on
    the asked network (compared without case) with the protocol in its
    name or its description. *)
Theorem find_returns_a_match (d : SubgraphDiscovery) protocol network version
  (log : list Post) (sid : json) :
  fst (find http_post float_ok d protocol network version log) = inr (Some sid) ->
  exists posted ep q vars r,
    snd (find http_post float_ok d protocol network version log)
    = (log ++ posted ++ [(ep, q, vars)])%list /\
    endpoint d = Some ep /\
    r ∈ candidates float_ok (http_post (length (log ++ posted)) ep q vars) /\
    subgraph_id r = sid /\ matches protocol network r.
Proof.
  unfold find. destruct (endpoint d) as [ep|]; simpl; [|discriminate].
  unfold search_by_protocol_name.
  set (terms := (protocol :: (if Py.truthy_opt version
                              then [protocol +:+ " " +:+ default "" version;
                                    protocol +:+ default "" version]
                              else []))%list).
  pose proof (search_terms_loop_matches ep protocol network terms log) as Hloop.
  pose proof (search_terms_loop_log ep protocol network terms log) as (extra & Hlog & _).
  destruct (search_terms_loop http_post float_ok ep protocol network terms log)
    as [[e|[r|]] log']; simpl in *.
  - discriminate.
  - intros [= <-]. destruct (Hloop r eq_refl) as (posted & term & Hl & _ & Hin & Hm).
    exists posted, ep, q_search, (JObj [("text", JStr term)]), r. auto.
  - subst log'. unfold search_in_high_signal_subgraphs, post. simpl.
    destruct (read_response float_ok (http_post (length (log ++ extra)) ep q_high_signal
                (JObj [("minSignal", JStr min_signal)]))) as [e|[results|]] eqn:R;
      simpl; try discriminate.
    destruct (first_by_text protocol network results) as [e|[r|]] eqn:F; simpl;
      try discriminate.
    intros [= <-]. apply first_by_text_matches in F as [Hin Hm].
    exists extra, ep, q_high_signal, (JObj [("minSignal", JStr min_signal)]), r.
    split; [now rewrite <- app_assoc|]. split; [reflexivity|].
    split; [|split; [reflexivity|exact Hm]].
    unfold candidates. now rewrite R.
Qed.

(** X28: The filter of the first search is outside any [try]: when the
    first candidate it looks at has a network that is not a string,
    [find] raises instead of returning [None]. *)
Theorem find_raises_on_untyped_network (d : SubgraphDiscovery) ep protocol network version
  (log : list Post) r rest e :
  endpoint d = Some ep ->
  fst (search ep protocol log) = r :: rest ->
  str_lower (Discovery.network r) = inl e ->
  fst (find http_post float_ok d protocol network version log) = inl e.
Proof.
  intros E S N. unfold find. rewrite E. unfold search_by_protocol_name.
  cbn [search_terms_loop app].
  destruct (search ep protocol log) as [results log']. simpl in S. subst results.
  cbn [first_by_name]. rewrite N. reflexivity.
Qed.

End Network.

#[local] Existing Instance Plain.text.

Lemma find_raises_on_untyped_network_witness :
  fst (find (fun _ _ _ _ => inr (200, inr null_network_body)) (fun _ => true)
         (mkDiscovery "key" (Some "https://meta")) "uniswap" "ethereum" None [])
  = inl "'NoneType' object has no attribute 'lower'".
Proof.
  eapply (find_raises_on_untyped_network _ _ _ "https://meta").
  - reflexivity.
  - vm_compute. reflexivity.
  - reflexivity.
Defined.

Lemma find_returns_a_match_witness :
  exists posted ep q vars r,
    snd (find (fun _ _ _ _ => inr (200, inr good_body)) (fun _ => true)
           (mkDiscovery "key" (Some "https://meta")) "Uniswap" "MAINNET" (Some "v3") [])
    = ([] ++ posted ++ [(ep, q, vars)])%list /\
    Some "https://meta" = Some ep /\
    r ∈ candidates (fun _ => true) (inr (200, inr good_body)) /\
    subgraph_id r = JStr "Qm1" /\ matches "Uniswap" "MAINNET" r.
Proof.
  apply (find_returns_a_match (fun _ _ _ _ => inr (200, inr good_body)) (fun _ => true)
           (mkDiscovery "key" (Some "https://meta")) "Uniswap" "MAINNET" (Some "v3") []).
  vm_compute. reflexivity.
Defined.

End DiscoveryMore.

(** ** Further properties of the batch tool and of the helpers *)

Module ToolsMore.

Import Tools Samples.

Section Batch.

Context `{U : Py.Unicode}.

Variable St : Type.
Variable smart : string -> St -> string * St.

Lemma run_queries_state i qs st :
  snd (run_queries St smart i qs st) = fold_left (fun s q => snd (smart q s)) qs st.
Proof.
  revert i st. induction qs as [|q rest IH]; intros i st; simpl; auto.
  destruct (smart q st) as [res st1] eqn:Hq.
  specialize (IH (Datatypes.S i) st1). destruct (run_queries St smart (S i) rest st1). simpl in *.
  exact IH.
Qed.

(** X29: With the key set and between one and five queries, each query is
    run exactly once, in the order given, each on the state the one
    before left. *)
Theorem multi_query_runs_each_once (GRAPH_API_KEY queries : string) (st : St) :
  Py.truthy GRAPH_API_KEY = true ->
  (1 <= length (query_list queries) <= 5)%nat ->
  snd (graph_multi_query St smart GRAPH_API_KEY queries st)
  = fold_left (fun s q => snd (smart q s)) (query_list queries) st.
Proof.
  intros Hk [Hlo Hhi]. unfold graph_multi_query. rewrite Hk. simpl.
  destruct (Nat.ltb_spec 5 (length (query_list queries))) as [Hgt|_]; [lia|].
  destruct (query_list queries) as [|q rest] eqn:Q; [simpl in Hlo; lia|].
  pose proof (run_queries_state 1 (q :: rest) st) as H.
  destruct (run_queries St smart 1 (q :: rest) st). simpl in *. exact H.
Qed.

End Batch.

Lemma len_append s1 s2 : Py.len (s1 +:+ s2) = (Py.len s1 + Py.len s2)%nat.
Proof.
  induction s1 as [|c r IH]; simpl; auto.
  destruct (Py.is_continuation c); simpl; now rewrite IH.
Qed.

Lemma len_take n s : Py.len (Py.take n s) = Nat.min n (Py.len s).
Proof.
  revert n. induction s as [|c r IH]; intros n; simpl.
  - now destruct n.
  - destruct (Py.is_continuation c) eqn:E; simpl.
    + rewrite E. apply IH.
    + destruct n as [|k]; simpl; [reflexivity|]. rewrite E. now rewrite IH.
Qed.

Lemma len_drop n s : Py.len (Py.drop n s) = (Py.len s - n)%nat.
Proof.
  revert n. induction s as [|c r IH]; intros n; simpl.
  - reflexivity.
  - destruct (Py.is_continuation c) eqn:E.
    + apply IH.
    + destruct n as [|k]; [simpl; now rewrite E|]. simpl. apply IH.
Qed.

Lemma prefix_append a t : String.prefix a (a +:+ t) = true.
Proof.
  induction a as [|c a IH]; simpl.
  - now destruct t.
  - destruct (ascii_dec c c); [exact IH|congruence].
Qed.

Lemma take_drop n s : Py.take n s +:+ Py.drop n s = s.
Proof.
  revert n. induction s as [|c r IH]; intros n; [reflexivity|].
  cbn [Py.take Py.drop]. destruct (Py.is_continuation c).
  - change (String c (Py.take n r +:+ Py.drop n r) = String c r). now rewrite IH.
  - destruct n as [|k]; [reflexivity|].
    change (String c (Py.take k r +:+ Py.drop k r) = String c r). now rewrite IH.
Qed.

(** X30: [format_address] leaves an address shorter than ten characters as
    it is, and cuts a longer one to fifteen characters: its first six,
    three dots, its last six. Characters are code points, as [len] and
    the slices of the source count them. *)
Theorem format_address_shape (address : string) :
  ((Py.len address < 10)%nat -> Config.format_address address = address) /\
  ((10 <= Py.len address)%nat ->
   Py.len (Config.format_address address) = 15%nat /\
   String.prefix (Py.take 6 address) address = true /\
   exists rest last,
     address = rest +:+ last /\ Py.len last = 6%nat /\
     Config.format_address address = Py.take 6 address +:+ "..." +:+ last).
Proof.
  unfold Config.format_address. split.
  - intros H. apply Nat.ltb_lt in H. rewrite H. now rewrite orb_true_r.
  - intros H. destruct address as [|c r] eqn:A; [simpl in H; lia|]. rewrite <- A in *.
    assert (Py.truthy address = true) as -> by now subst.
    destruct (Nat.ltb_spec (Py.len address) 10) as [Hlt|_]; [lia|]. simpl negb.
    cbn [orb]. unfold Config.short_address_length. split; [|split].
    + rewrite !len_append, len_take, len_drop.
      change (Py.len "...") with 3%nat. lia.
    + rewrite <- (take_drop 6 address) at 2. apply prefix_append.
    + exists (Py.take (Py.len address - 6) address), (Py.drop (Py.len address - 6) address).
      split; [|split].
      * symmetry. apply take_drop.
      * rewrite len_drop. lia.
      * reflexivity.
Qed.

#[local] Existing Instance Plain.text.

Lemma multi_query_runs_each_once_witness :
  snd (graph_multi_query (list string) recording "key" " Uniswap TVL ;; Aave borrows " [])
  = ["Uniswap TVL"; "Aave borrows"].
Proof.
  rewrite (multi_query_runs_each_once (list string) recording "key"
             " Uniswap TVL ;; Aave borrows " []).
  - reflexivity.
  - reflexivity.
  - vm_compute. lia.
Defined.

Lemma format_address_shape_witness :
  Config.format_address "0x88e6a0c2ddd26feeb64f039a2c41296fcb3f5640" = "0x88e6...3f5640" /\
  Config.format_address "ééééé" = "ééééé" /\
  Py.len (Config.format_address "ééééééééééé") = 15%nat.
Proof.
  destruct (format_address_shape "ééééé") as [H _].
  destruct (format_address_shape "ééééééééééé") as [_ H'].
  split; [reflexivity|]. split.
  - apply H. vm_compute. lia.
  - apply H'. vm_compute. lia.
Defined.

End ToolsMore.
